(** * Password validators of [metashare.accounts.django_password_validators]

    A shallow embedding of the validator composition and reporting engine
    (registry, orchestrator, help-text aggregator) and of the validator
    classes, followed by the properties of the specification.

    Conventions of the embedding.
    - Python text is a list of characters ([text]).  A character is a code
      point below 256 (Rocq's [ascii]); the character tests follow Python 2's
      [unicode] methods on that range.
    - Python values that travel through [OPTIONS] dictionaries and user
      attributes are the dynamically typed [value]s.  A float is the rational
      it denotes.
    - A Python call either returns or raises: [Result].  [try]/[except]
      clauses match on the exception raised.
    - Dictionaries are [gmap]s, sets are [gset]s.
    - Lazily translated messages stay symbolic ([message]); rendering them is
      left to the translation layer.
    - Integers are unbounded; an index is a 64-bit one.  Running out of
      memory is not modelled.
    - The memoization of [get_default_password_validators] is not modelled:
      the function is pure in the settings. *)

From Stdlib Require Import ZArith QArith Lqa Ascii String List Permutation Lia.
From stdpp Require Import gmap strings list fin_maps.

Local Open Scope string_scope.
Local Open Scope list_scope.
Local Open Scope Z_scope.

Set Warnings "-register-all".

(** ** Text *)

Definition text : Type := list ascii.

(** [py "abc"] is the Python string ['abc']. *)
Definition py (s : string) : text := list_ascii_of_string s.

Definition code_point (c : ascii) : N := N_of_ascii c.

Definition in_range (lo hi : N) (c : ascii) : bool :=
  ((lo <=? code_point c) && (code_point c <=? hi))%N.

(** [c.isdigit()]: the decimal digits and the superscript digits of Latin-1. *)
Definition char_isdigit (c : ascii) : bool :=
  in_range 48 57 c || in_range 178 179 c || in_range 185 185 c.

(** [c.isspace()] *)
Definition char_isspace (c : ascii) : bool :=
  in_range 9 13 c || in_range 28 32 c || in_range 133 133 c || in_range 160 160 c.

(** [c.lower()] *)
Definition char_lower (c : ascii) : ascii :=
  if in_range 65 90 c || in_range 192 214 c || in_range 216 222 c
  then ascii_of_N (code_point c + 32)
  else c.

(** The class [\w] of the [re] module without flags: [[a-zA-Z0-9_]]. *)
Definition char_isword (c : ascii) : bool :=
  in_range 97 122 c || in_range 65 90 c || in_range 48 57 c || in_range 95 95 c.

(** [s.lower()] *)
Definition str_lower (s : text) : text := map char_lower s.

(** [s.isdigit()]: every character is a digit and there is at least one. *)
Definition str_isdigit (s : text) : bool :=
  match s with
  | [] => false
  | _ => forallb char_isdigit s
  end.

(** [s.lstrip()], [s.rstrip()], [s.strip()] *)
Fixpoint str_lstrip (s : text) : text :=
  match s with
  | c :: s' => if char_isspace c then str_lstrip s' else s
  | [] => []
  end.

Definition str_rstrip (s : text) : text := rev (str_lstrip (rev s)).

Definition str_strip (s : text) : text := str_rstrip (str_lstrip s).

(** [s.startswith(sub)] *)
Fixpoint str_startswith (sub s : text) : bool :=
  match sub, s with
  | [], _ => true
  | _ :: _, [] => false
  | a :: sub', b :: s' => if decide (a = b) then str_startswith sub' s' else false
  end.

(** [sub in s] *)
Fixpoint str_contains (sub s : text) : bool :=
  str_startswith sub s ||
  match s with
  | [] => false
  | _ :: s' => str_contains sub s'
  end.

(** [set(s)], iterated in some order without duplicates. *)
Definition str_set (s : text) : list ascii := remove_dups s.

(** [re.split('\W+', s)]: the maximal runs of word characters, with an empty
    string where [s] starts or ends with a separator.  [cur] is the current
    run, reversed; [in_sep] tells that the previous character was part of a
    separator. *)
Fixpoint re_split_go (s : text) (cur : text) (in_sep : bool) : list text :=
  match s with
  | [] => [rev cur]
  | c :: s' =>
      if char_isword c then re_split_go s' (c :: cur) false
      else if in_sep then re_split_go s' cur true
      else rev cur :: re_split_go s' [] true
  end.

Definition re_split_nonword (s : text) : list text := re_split_go s [] false.

(** ** Values, messages and exceptions *)

(** The values found in [OPTIONS] and in user attributes: [None], integers,
    floats (as the rational they denote), strings and tuples. *)
Inductive value : Type :=
| VNone
| VInt (n : Z)
| VFloat (q : Q)
| VStr (s : text)
| VTuple (items : list value).

(** A lazily translated message: [_(msgid)], [ungettext_lazy(singular,
    plural, number)] and the interpolations [m % arg] and [m % {...}]. *)
Inductive message : Type :=
| ugettext_lazy (msgid : string)
| ungettext_lazy (singular plural number : string)
| interpolate (m : message) (arg : value)
| interpolate_dict (m : message) (params : list (string * value)).

(** [ValidationError(message, code=..., params=...)] and
    [ValidationError(errors)] for a list of errors. *)
Inductive ValidationError : Type :=
| ValidationError_single (msg : message) (code : string) (params : list (string * value))
| ValidationError_list (errors : list ValidationError).

Inductive exn : Type :=
| ExnValidationError (error : ValidationError)
| ImportError (name : text)
| ImproperlyConfigured (msg : text)
| TypeError
| OverflowError
| IOError
| OtherException (what : string).

(** The outcome of a call. *)
Inductive Result (A : Type) : Type :=
| Ok (a : A)
| Raise (e : exn).
Arguments Ok {A} a.
Arguments Raise {A} e.

#[global] Instance Result_ret : MRet Result := fun A a => Ok a.

#[global] Instance Result_bind : MBind Result := fun A B k r =>
  match r with
  | Ok a => k a
  | Raise e => Raise e
  end.

#[global] Instance Result_fmap : FMap Result := fun A B f r =>
  match r with
  | Ok a => Ok (f a)
  | Raise e => Raise e
  end.

(** The error code of a failure, when the call failed with a single
    [ValidationError]. *)
Definition error_code {A} (r : Result A) : option string :=
  match r with
  | Raise (ExnValidationError (ValidationError_single _ code _)) => Some code
  | _ => None
  end.

(** [bool(v)] *)
Definition truthy (v : value) : bool :=
  match v with
  | VNone => false
  | VInt n => negb (n =? 0)
  | VFloat q => negb (Qeq_bool q 0)
  | VStr s => match s with [] => false | _ => true end
  | VTuple items => match items with [] => false | _ => true end
  end.

(** [isinstance(v, string_types)] *)
Definition is_string (v : value) : bool :=
  match v with
  | VStr _ => true
  | _ => false
  end.

(** [n < v] for an integer [n].  Python 2 orders [None] below the numbers and
    the numbers below every other type. *)
Definition int_lt (n : Z) (v : value) : bool :=
  match v with
  | VNone => false
  | VInt m => n <? m
  | VFloat q => negb (Qle_bool q (inject_Z n))
  | VStr _ | VTuple _ => true
  end.

(** [x > v] for a float [x]. *)
Definition float_gt (x : Q) (v : value) : bool :=
  match v with
  | VNone => true
  | VInt m => negb (Qle_bool x (inject_Z m))
  | VFloat q => negb (Qle_bool x q)
  | VStr _ | VTuple _ => false
  end.

(** [v == n] for an integer [n]. *)
Definition eq_int (v : value) (n : Z) : bool :=
  match v with
  | VInt m => m =? n
  | VFloat q => Qeq_bool q (inject_Z n)
  | _ => false
  end.

(** [v + 1] *)
Definition add_one (v : value) : Result value :=
  match v with
  | VInt n => Ok (VInt (n + 1))
  | VFloat q => Ok (VFloat (q + 1))
  | _ => Raise TypeError
  end.

(** [sys.maxsize], the largest index, on a 64-bit build. *)
Definition sys_maxsize : Z := 2 ^ 63 - 1.

(** [c * n] for a one-character string [c] and an integer [n]: empty when
    [n <= 0], and an [OverflowError] when [n] does not fit an index.  Running
    out of memory while the string is built, for a count that fits, is not
    modelled: the properties keep the count within the length of the password
    plus one. *)
Definition str_mul (c : ascii) (n : Z) : Result text :=
  if (n <? - sys_maxsize - 1) || (sys_maxsize <? n) then Raise OverflowError
  else Ok (repeat c (Z.to_nat n)).

(** [c * v] for a one-character string [c]: only an integer count is
    accepted. *)
Definition str_mul_value (c : ascii) (v : value) : Result text :=
  match v with
  | VInt n => str_mul c n
  | _ => Raise TypeError
  end.

(** [for x in v]: the items of a tuple, the one-character strings of a
    string. *)
Definition iterate (v : value) : Result (list value) :=
  match v with
  | VTuple items => Ok items
  | VStr s => Ok (map (fun c => VStr [c]) s)
  | _ => Raise TypeError
  end.

(** ** Users and validators *)

(** A user object: its attributes, and the verbose name of the model field
    behind an attribute, [force_text(user._meta.get_field(name).verbose_name)],
    a lookup that can raise.  A user object is truthy; the absent user is
    [None]. *)
Record User : Type := {
  user_attrs : gmap text value;
  user_verbose_name : text -> Result text;
}.

(** [getattr(user, name, None)]; the name must be a string. *)
Definition getattr_user (user : User) (name : value) : Result value :=
  match name with
  | VStr n => Ok (default VNone (user_attrs user !! n))
  | _ => Raise TypeError
  end.

(** Text on its way into markup: plain text, escaped when formatted, or text
    marked safe ([SafeText]). *)
Inductive markup : Type :=
| Plain (s : text)
| Safe (s : text).

(** What [get_help_text] returns: a lazily translated message, or text,
    marked safe or not. *)
Inductive help_text : Type :=
| LazyText (m : message)
| Text (m : markup).

Definition lazy_text (m : message) : Result help_text := Ok (LazyText m).

(** [template % arg] for a template with the one conversion [%d]: the
    argument is a number, or a tuple of one number. *)
Definition formats_as_d (arg : value) : bool :=
  match arg with
  | VInt _ | VFloat _ => true
  | VTuple [VInt _] | VTuple [VFloat _] => true
  | _ => false
  end.

(** A validator object: its two methods and the attributes that hold plain
    values. *)
Record Validator : Type := {
  validate : text -> option User -> Result unit;
  get_help_text : Result help_text;
  attrs : gmap text value;
}.

(** A class, called with keyword arguments. *)
Definition klass : Type := gmap text value -> Result Validator.

(** An entry of [AUTH_PASSWORD_VALIDATORS]: [{'NAME': ..., 'OPTIONS': ...}],
    the options being optional. *)
Record ValidatorConfig : Type := {
  NAME : text;
  OPTIONS : option (gmap text value);
}.

(** ** Binding of keyword arguments *)

(** A class called with the keyword arguments [kwargs], for an [__init__]
    whose parameters, with their defaults, are [params]: an unexpected
    keyword is a [TypeError]; the result maps every parameter to the value it
    is bound to. *)
Definition bind_kwargs (params : list (text * value)) (kwargs : gmap text value)
  : Result (gmap text value) :=
  if decide (dom kwargs ⊆ list_to_set (params.*1))
  then Ok (kwargs ∪ list_to_map params)
  else Raise TypeError.

(** The value bound to parameter [name]. *)
Definition bound (args : gmap text value) (name : text) : value :=
  default VNone (args !! name).

(** ** MinimumLengthValidator *)

Definition MinimumLengthValidator_validate
    (min_length : value) (password : text) (user : option User) : Result unit :=
  if int_lt (Z.of_nat (length password)) min_length then
    Raise (ExnValidationError (ValidationError_single
      (ungettext_lazy
         "This password is too short. It must contain at least %(min_length)d character."
         "This password is too short. It must contain at least %(min_length)d characters."
         "min_length")
      "password_too_short"
      [("min_length", min_length)]))
  else Ok tt.

Definition MinimumLengthValidator_get_help_text (min_length : value)
  : Result help_text :=
  lazy_text (interpolate_dict
    (ungettext_lazy
       "Your password must contain at least %(min_length)d character."
       "Your password must contain at least %(min_length)d characters."
       "min_length")
    [("min_length", min_length)]).

Definition MinimumLengthValidator : klass := fun kwargs =>
  args ← bind_kwargs [(py "min_length", VInt 8)] kwargs;
  let min_length := bound args (py "min_length") in
  Ok {| validate := MinimumLengthValidator_validate min_length;
        get_help_text := MinimumLengthValidator_get_help_text min_length;
        attrs := {[ py "min_length" := min_length ]} |}.

(** ** UserAttributeSimilarityValidator *)

(** [SequenceMatcher(a=a, b=b).quick_ratio()] of [difflib]: how many times
    each element occurs in [b] ... *)
Definition fullbcount (b : text) : gmap ascii Z :=
  foldl (fun counts elt => <[elt := default 0 (counts !! elt) + 1]> counts) ∅ b.

(** ... the number of elements of [a] that still find a partner in [b],
    [avail] counting what is left of each ... *)
Fixpoint quick_matches (full : gmap ascii Z) (a : text) (avail : gmap ascii Z)
    (matches : Z) : Z :=
  match a with
  | [] => matches
  | elt :: a' =>
      let numb :=
        match avail !! elt with
        | Some n => n
        | None => default 0 (full !! elt)
        end in
      quick_matches full a' (<[elt := numb - 1]> avail)
        (if 0 <? numb then matches + 1 else matches)
  end.

(** ... and [_calculate_ratio(matches, length)]: [2.0 * matches / length],
    and [1.0] when both sequences are empty.  The quotient is kept exact;
    compared with 0 and with 1 it behaves as the rounded quotient does. *)
Definition calculate_ratio (matches length : Z) : Q :=
  if length =? 0 then 1%Q else (2 * matches # Z.to_pos length)%Q.

Definition quick_ratio (a b : text) : Q :=
  calculate_ratio (quick_matches (fullbcount b) a ∅ 0)
    (Z.of_nat (length a) + Z.of_nat (length b)).

(** [DEFAULT_USER_ATTRIBUTES = ('username')]: parentheses around a string,
    not a tuple. *)
Definition DEFAULT_USER_ATTRIBUTES : value := VStr (py "username").

(** The inner loop, [for value_part in value_parts]. *)
Fixpoint UserAttributeSimilarityValidator_parts
    (max_similarity : value) (password : text) (user : User)
    (attribute_name : text) (value_parts : list text) : Result unit :=
  match value_parts with
  | [] => Ok tt
  | value_part :: rest =>
      let similarity := quick_ratio (str_lower password) (str_lower value_part) in
      if float_gt similarity max_similarity || Qeq_bool similarity 1
         || eq_int max_similarity 0
      then
        verbose_name ← user_verbose_name user attribute_name;
        Raise (ExnValidationError (ValidationError_single
          (ugettext_lazy "The password is too similar to the %(verbose_name)s.")
          "password_too_similar"
          [("verbose_name", VStr verbose_name)]))
      else
        UserAttributeSimilarityValidator_parts max_similarity password user
          attribute_name rest
  end.

(** The outer loop, [for attribute_name in self.user_attributes]. *)
Fixpoint UserAttributeSimilarityValidator_attributes
    (max_similarity : value) (password : text) (user : User)
    (attribute_names : list value) : Result unit :=
  match attribute_names with
  | [] => Ok tt
  | attribute_name :: rest =>
      v ← getattr_user user attribute_name;
      if negb (truthy v) || negb (is_string v) then
        UserAttributeSimilarityValidator_attributes max_similarity password user rest
      else
        match attribute_name, v with
        | VStr name, VStr s =>
            let value_parts := re_split_nonword s ++ [s] in
            _ ← UserAttributeSimilarityValidator_parts max_similarity password
                   user name value_parts;
            UserAttributeSimilarityValidator_attributes max_similarity password
              user rest
        | _, _ => Raise TypeError
        end
  end.

Definition UserAttributeSimilarityValidator_validate
    (user_attributes max_similarity : value) (password : text)
    (user : option User) : Result unit :=
  match user with
  | None => Ok tt
  | Some u =>
      attribute_names ← iterate user_attributes;
      UserAttributeSimilarityValidator_attributes max_similarity password u
        attribute_names
  end.

Definition UserAttributeSimilarityValidator_get_help_text : Result help_text :=
  lazy_text (ugettext_lazy
    "Your password can't be too similar to your other personal information.").

Definition UserAttributeSimilarityValidator : klass := fun kwargs =>
  args ← bind_kwargs [(py "user_attributes", DEFAULT_USER_ATTRIBUTES);
                       (py "max_similarity", VFloat (1 # 2))] kwargs;
  let user_attributes := bound args (py "user_attributes") in
  let max_similarity := bound args (py "max_similarity") in
  Ok {| validate :=
          UserAttributeSimilarityValidator_validate user_attributes max_similarity;
        get_help_text := UserAttributeSimilarityValidator_get_help_text;
        attrs := {[ py "user_attributes" := user_attributes;
                    py "max_similarity" := max_similarity ]} |}.

(** ** CommonPasswordValidator *)

(** What the module sees of the file system: the lines of a gzipped file,
    [gzip.open(path).read().decode('utf-8').splitlines()], the lines of a
    plain file, [open(path).readlines()], and the directory of the module. *)
Record FileSystem : Type := {
  gzip_read_splitlines : value -> Result (list text);
  open_readlines : value -> Result (list text);
  module_directory : text;
}.

Definition DEFAULT_PASSWORD_LIST_PATH (fs : FileSystem) : value :=
  VStr (module_directory fs ++ py "/common-passwords.txt.gz").

(** [__init__]: the set [self.passwords]. *)
Definition CommonPasswordValidator_init (fs : FileSystem)
    (password_list_path : value) : Result (gset text) :=
  common_passwords_lines ←
    match gzip_read_splitlines fs password_list_path with
    | Raise IOError => open_readlines fs password_list_path
    | r => r
    end;
  Ok (list_to_set (map str_strip common_passwords_lines)).

Definition CommonPasswordValidator_validate
    (passwords : gset text) (password : text) (user : option User) : Result unit :=
  if decide (str_strip (str_lower password) ∈ passwords) then
    Raise (ExnValidationError (ValidationError_single
      (ugettext_lazy "This password is too common.")
      "password_too_common" []))
  else Ok tt.

Definition CommonPasswordValidator_get_help_text : Result help_text :=
  lazy_text (ugettext_lazy "Your password can't be a commonly used password.").

Definition CommonPasswordValidator (fs : FileSystem) : klass := fun kwargs =>
  args ← bind_kwargs [(py "password_list_path", DEFAULT_PASSWORD_LIST_PATH fs)] kwargs;
  passwords ← CommonPasswordValidator_init fs (bound args (py "password_list_path"));
  Ok {| validate := CommonPasswordValidator_validate passwords;
        get_help_text := CommonPasswordValidator_get_help_text;
        attrs := ∅ |}.

(** ** NumericPasswordValidator *)

Definition NumericPasswordValidator_validate
    (password : text) (user : option User) : Result unit :=
  if str_isdigit password then
    Raise (ExnValidationError (ValidationError_single
      (ugettext_lazy "This password is entirely numeric.")
      "password_entirely_numeric" []))
  else Ok tt.

Definition NumericPasswordValidator_get_help_text : Result help_text :=
  lazy_text (ugettext_lazy "Your password can't be entirely numeric.").

Definition NumericPasswordValidator : klass := fun kwargs =>
  _ ← bind_kwargs [] kwargs;
  Ok {| validate := NumericPasswordValidator_validate;
        get_help_text := NumericPasswordValidator_get_help_text;
        attrs := ∅ |}.

(** ** The four character-class validators *)

(** [c.isupper()], [c.islower()] and [c == ' ' or c in string.punctuation] *)
Definition char_isupper (c : ascii) : bool :=
  in_range 65 90 c || in_range 192 214 c || in_range 216 222 c.

Definition char_islower (c : ascii) : bool :=
  in_range 97 122 c || in_range 170 170 c || in_range 181 181 c
  || in_range 186 186 c || in_range 223 246 c || in_range 248 255 c.

Definition char_ispunctuation_or_space (c : ascii) : bool :=
  in_range 32 32 c || in_range 33 47 c || in_range 58 64 c
  || in_range 91 96 c || in_range 123 126 c.

(** [if not any(test(c) for c in password): raise ...] *)
Definition at_least_one (test : ascii -> bool) (msgid code : string)
    (password : text) (user : option User) : Result unit :=
  if negb (existsb test password) then
    Raise (ExnValidationError (ValidationError_single (ugettext_lazy msgid) code []))
  else Ok tt.

Definition AtLeastOneDigitValidator_validate :=
  at_least_one char_isdigit
    "This password does not contain a digit." "password_without_digit".

Definition AtLeastOneDigitValidator : klass := fun kwargs =>
  _ ← bind_kwargs [] kwargs;
  Ok {| validate := AtLeastOneDigitValidator_validate;
        get_help_text :=
          lazy_text (ugettext_lazy "Your password must contain at least one digit.");
        attrs := ∅ |}.

Definition AtLeastOnePunctuationCharacterValidator_validate :=
  at_least_one char_ispunctuation_or_space
    "This password does not contain a punctuation character."
    "password_without_punctuation".

Definition AtLeastOnePunctuationCharacterValidator : klass := fun kwargs =>
  _ ← bind_kwargs [] kwargs;
  Ok {| validate := AtLeastOnePunctuationCharacterValidator_validate;
        get_help_text :=
          lazy_text (ugettext_lazy
            "Your password must contain at least one punctuation character.");
        attrs := ∅ |}.

Definition AtLeastOneUppercaseCharacterValidator_validate :=
  at_least_one char_isupper
    "This password does not contain an uppercase character."
    "password_without_uppercase".

Definition AtLeastOneUppercaseCharacterValidator : klass := fun kwargs =>
  _ ← bind_kwargs [] kwargs;
  Ok {| validate := AtLeastOneUppercaseCharacterValidator_validate;
        get_help_text :=
          lazy_text (ugettext_lazy
            "Your password must contain at least one uppercase character.");
        attrs := ∅ |}.

Definition AtLeastOneLowercaseCharacterValidator_validate :=
  at_least_one char_islower
    "This password does not contain a lowercase character."
    "password_without_lowercase".

Definition AtLeastOneLowercaseCharacterValidator : klass := fun kwargs =>
  _ ← bind_kwargs [] kwargs;
  Ok {| validate := AtLeastOneLowercaseCharacterValidator_validate;
        get_help_text :=
          lazy_text (ugettext_lazy
            "Your password must contain at least one lowercase character.");
        attrs := ∅ |}.

(** ** NoRepeatsValidator *)

(** The loop [for c in chars]. *)
Fixpoint NoRepeatsValidator_chars
    (max_repeats : value) (password : text) (chars : list ascii) : Result unit :=
  match chars with
  | [] => Ok tt
  | c :: rest =>
      count ← add_one max_repeats;
      run ← str_mul_value c count;
      if str_contains run password then
        Raise (ExnValidationError (ValidationError_single
          (interpolate
             (ugettext_lazy
                "This password contains a character repeated more than %d times in a row.")
             max_repeats)
          "password_contains_repeats" []))
      else NoRepeatsValidator_chars max_repeats password rest
  end.

Definition NoRepeatsValidator_validate
    (max_repeats : value) (password : text) (user : option User) : Result unit :=
  NoRepeatsValidator_chars max_repeats password (str_set password).

Definition NoRepeatsValidator_get_help_text (max_repeats : value)
  : Result help_text :=
  if formats_as_d max_repeats then
    lazy_text (interpolate
      (ugettext_lazy
         "Your password can't contain a character repeated more than %d times in a row.")
      max_repeats)
  else Raise TypeError.

Definition NoRepeatsValidator : klass := fun kwargs =>
  args ← bind_kwargs [(py "max_repeats", VInt 2)] kwargs;
  let max_repeats := bound args (py "max_repeats") in
  Ok {| validate := NoRepeatsValidator_validate max_repeats;
        get_help_text := NoRepeatsValidator_get_help_text max_repeats;
        attrs := {[ py "max_repeats" := max_repeats ]} |}.

(** ** The registry *)

(** The dotted path of a class of this module. *)
Definition dotted (class_name : string) : text :=
  py "metashare.accounts.django_password_validators." ++ py class_name.

Definition DEFAULT_AUTH_PASSWORD_VALIDATORS : list ValidatorConfig :=
  [ {| NAME := dotted "UserAttributeSimilarityValidator";
       OPTIONS := Some {[ py "max_similarity" := VFloat (1 # 2) ]} |};
    {| NAME := dotted "MinimumLengthValidator";
       OPTIONS := Some {[ py "min_length" := VInt 10 ]} |};
    {| NAME := dotted "CommonPasswordValidator"; OPTIONS := None |};
    {| NAME := dotted "NumericPasswordValidator"; OPTIONS := None |};
    {| NAME := dotted "AtLeastOneDigitValidator"; OPTIONS := None |};
    {| NAME := dotted "AtLeastOnePunctuationCharacterValidator"; OPTIONS := None |};
    {| NAME := dotted "AtLeastOneUppercaseCharacterValidator"; OPTIONS := None |};
    {| NAME := dotted "AtLeastOneLowercaseCharacterValidator"; OPTIONS := None |};
    {| NAME := dotted "NoRepeatsValidator";
       OPTIONS := Some {[ py "max_repeats" := VInt 2 ]} |} ].

(** [msg % validator['NAME']] *)
Definition could_not_be_imported (name : text) : text :=
  py "The module in NAME could not be imported: " ++ name
  ++ py ". Check your AUTH_PASSWORD_VALIDATORS setting.".

(** The loop of [get_password_validators]; [validators] is the list built so
    far.  [import_string] is Django's lookup of a dotted path. *)
Fixpoint get_password_validators_loop (import_string : text -> Result klass)
    (validator_config : list ValidatorConfig) (validators : list Validator)
  : Result (list Validator) :=
  match validator_config with
  | [] => Ok validators
  | validator :: rest =>
      klass ←
        match import_string (NAME validator) with
        | Raise (ImportError _) =>
            Raise (ImproperlyConfigured (could_not_be_imported (NAME validator)))
        | r => r
        end;
      instance ← klass (default ∅ (OPTIONS validator));
      get_password_validators_loop import_string rest (validators ++ [instance])
  end.

Definition get_password_validators (import_string : text -> Result klass)
    (validator_config : list ValidatorConfig) : Result (list Validator) :=
  get_password_validators_loop import_string validator_config [].

(** [settings_value] is [settings.AUTH_PASSWORD_VALIDATORS], when set. *)
Definition get_default_password_validators (import_string : text -> Result klass)
    (settings_value : option (list ValidatorConfig)) : Result (list Validator) :=
  get_password_validators import_string
    (default DEFAULT_AUTH_PASSWORD_VALIDATORS settings_value).

(** The classes of this module, by name. *)
Inductive class_name : Type :=
| CMinimumLength | CUserAttributeSimilarity | CCommonPassword | CNumericPassword
| CAtLeastOneDigit | CAtLeastOnePunctuationCharacter
| CAtLeastOneUppercaseCharacter | CAtLeastOneLowercaseCharacter | CNoRepeats.

Definition class_names : list class_name :=
  [CMinimumLength; CUserAttributeSimilarity; CCommonPassword; CNumericPassword;
   CAtLeastOneDigit; CAtLeastOnePunctuationCharacter;
   CAtLeastOneUppercaseCharacter; CAtLeastOneLowercaseCharacter; CNoRepeats].

Definition class_path (c : class_name) : text :=
  match c with
  | CMinimumLength => dotted "MinimumLengthValidator"
  | CUserAttributeSimilarity => dotted "UserAttributeSimilarityValidator"
  | CCommonPassword => dotted "CommonPasswordValidator"
  | CNumericPassword => dotted "NumericPasswordValidator"
  | CAtLeastOneDigit => dotted "AtLeastOneDigitValidator"
  | CAtLeastOnePunctuationCharacter => dotted "AtLeastOnePunctuationCharacterValidator"
  | CAtLeastOneUppercaseCharacter => dotted "AtLeastOneUppercaseCharacterValidator"
  | CAtLeastOneLowercaseCharacter => dotted "AtLeastOneLowercaseCharacterValidator"
  | CNoRepeats => dotted "NoRepeatsValidator"
  end.

Definition class_of (fs : FileSystem) (c : class_name) : klass :=
  match c with
  | CMinimumLength => MinimumLengthValidator
  | CUserAttributeSimilarity => UserAttributeSimilarityValidator
  | CCommonPassword => CommonPasswordValidator fs
  | CNumericPassword => NumericPasswordValidator
  | CAtLeastOneDigit => AtLeastOneDigitValidator
  | CAtLeastOnePunctuationCharacter => AtLeastOnePunctuationCharacterValidator
  | CAtLeastOneUppercaseCharacter => AtLeastOneUppercaseCharacterValidator
  | CAtLeastOneLowercaseCharacter => AtLeastOneLowercaseCharacterValidator
  | CNoRepeats => NoRepeatsValidator
  end.

(** [import_string] when this module is the only one that can be imported. *)
Definition import_string_module (fs : FileSystem) (name : text) : Result klass :=
  match find (fun c => bool_decide (class_path c = name)) class_names with
  | Some c => Ok (class_of fs c)
  | None => Raise (ImportError name)
  end.

(** ** The orchestrator *)

(** A call of a validator's [validate]. *)
Record Call : Type := {
  call_receiver : Validator;
  call_password : text;
  call_user : option User;
}.

(** Code that calls validators: the calls made so far are threaded through. *)
Definition Traced (A : Type) : Type := list Call -> Result A * list Call.

#[global] Instance Traced_ret : MRet Traced := fun A a calls => (Ok a, calls).

#[global] Instance Traced_bind : MBind Traced := fun A B k m calls =>
  match m calls with
  | (Ok a, calls') => k a calls'
  | (Raise e, calls') => (Raise e, calls')
  end.

Definition raise {A} (e : exn) : Traced A := fun calls => (Raise e, calls).

Definition lift {A} (r : Result A) : Traced A := fun calls => (r, calls).

(** [validator.validate(password, user)] *)
Definition call_validate (validator : Validator) (password : text)
    (user : option User) : Traced unit := fun calls =>
  (validate validator password user,
   calls ++ [{| call_receiver := validator; call_password := password;
                call_user := user |}]).

(** [try: body except ValidationError as error: handler(error)] *)
Definition try_except_ValidationError {A} (body : Traced A)
    (handler : ValidationError -> Traced A) : Traced A := fun calls =>
  match body calls with
  | (Raise (ExnValidationError error), calls') => handler error calls'
  | outcome => outcome
  end.

(** The loop of [validate_password]; [errors] is the list built so far. *)
Fixpoint validate_password_loop (password : text) (user : option User)
    (password_validators : list Validator) (errors : list ValidationError)
  : Traced (list ValidationError) :=
  match password_validators with
  | [] => mret errors
  | validator :: rest =>
      errors' ← try_except_ValidationError
                  (_ ← call_validate validator password user; mret errors)
                  (fun error => mret (errors ++ [error]));
      validate_password_loop password user rest errors'
  end.

(** [default_validators] is the outcome of
    [get_default_password_validators()]. *)
Definition validate_password (default_validators : Result (list Validator))
    (password : text) (user : option User)
    (password_validators : option (list Validator)) : Traced unit :=
  password_validators ←
    match password_validators with
    | None => lift default_validators
    | Some validators => mret validators
    end;
  errors ← validate_password_loop password user password_validators [];
  match errors with
  | [] => mret tt
  | _ => raise (ExnValidationError (ValidationError_list errors))
  end.

(** ** The [password_changed] hook *)

(** A validator object that may define the optional method
    [password_changed].  The method is there for its effect, on a state of
    type [W]. *)
Record HookedValidator (W : Type) : Type := {
  hooked_validator : Validator;
  password_changed_method : option (text -> option User -> W -> Result unit * W);
}.
Arguments hooked_validator {W} _.
Arguments password_changed_method {W} _.

(** [getattr(validator, 'password_changed', lambda *a: None)] *)
Definition getattr_password_changed {W} (validator : HookedValidator W)
  : text -> option User -> W -> Result unit * W :=
  match password_changed_method validator with
  | Some method => method
  | None => fun _ _ w => (Ok tt, w)
  end.

Fixpoint password_changed_loop {W} (password : text) (user : option User)
    (password_validators : list (HookedValidator W)) (w : W) : Result unit * W :=
  match password_validators with
  | [] => (Ok tt, w)
  | validator :: rest =>
      match getattr_password_changed validator password user w with
      | (Ok _, w') => password_changed_loop password user rest w'
      | (Raise e, w') => (Raise e, w')
      end
  end.

Definition password_changed {W}
    (default_validators : Result (list (HookedValidator W)))
    (password : text) (user : option User)
    (password_validators : option (list (HookedValidator W))) (w : W)
  : Result unit * W :=
  match password_validators with
  | Some validators => password_changed_loop password user validators w
  | None =>
      match default_validators with
      | Ok validators => password_changed_loop password user validators w
      | Raise e => (Raise e, w)
      end
  end.

(** ** The help-text aggregator *)

Definition markup_text (m : markup) : text :=
  match m with
  | Plain s | Safe s => s
  end.

Definition double_quote : ascii := ascii_of_N 34.

(** [django.utils.html.escape], character by character. *)
Definition escape_char (c : ascii) : text :=
  if decide (c = "&"%char) then py "&amp;"
  else if decide (c = "<"%char) then py "&lt;"
  else if decide (c = ">"%char) then py "&gt;"
  else if decide (c = double_quote) then py "&quot;"
  else if decide (c = "'"%char) then py "&#39;"
  else [c].

Definition escape (s : text) : text := flat_map escape_char s.

Definition conditional_escape (m : markup) : text :=
  match m with
  | Plain s => escape s
  | Safe s => s
  end.

(** [format_string.format( *args)] for a format string whose only fields are
    [{}]: each one takes the next argument; a missing argument is an
    [IndexError], a brace on its own a [ValueError]. *)
Fixpoint str_format (format_string : text) (args : list text) : Result text :=
  match format_string with
  | [] => Ok []
  | c :: rest =>
      if decide (c = "{"%char) then
        match rest with
        | c' :: rest' =>
            if decide (c' = "}"%char) then
              match args with
              | arg :: args' => out ← str_format rest' args'; Ok (arg ++ out)
              | [] => Raise (OtherException "IndexError")
              end
            else Raise (OtherException "ValueError")
        | [] => Raise (OtherException "ValueError")
        end
      else if decide (c = "}"%char) then Raise (OtherException "ValueError")
      else out ← str_format rest args; Ok (c :: out)
  end.

(** [format_html(format_string, *args)] *)
Definition format_html (format_string : text) (args : list markup) : Result markup :=
  out ← str_format format_string (map conditional_escape args);
  Ok (Safe out).

(** [sep.join(items)] *)
Fixpoint str_join (sep : text) (items : list text) : text :=
  match items with
  | [] => []
  | [item] => item
  | item :: rest => item ++ sep ++ str_join sep rest
  end.

(** [format_html_join(sep, format_string, args_generator)] *)
Definition format_html_join (sep : text) (format_string : text)
    (args_generator : list (list markup)) : Result markup :=
  items ← mapM (fun args => markup_text <$> format_html format_string args)
             args_generator;
  Ok (Safe (str_join (conditional_escape (Plain sep)) items)).

Fixpoint password_validators_help_texts_loop
    (password_validators : list Validator) (help_texts : list help_text)
  : Result (list help_text) :=
  match password_validators with
  | [] => Ok help_texts
  | validator :: rest =>
      text ← get_help_text validator;
      password_validators_help_texts_loop rest (help_texts ++ [text])
  end.

Definition password_validators_help_texts
    (password_validators : list Validator) : Result (list help_text) :=
  password_validators_help_texts_loop password_validators [].

(** A help text as an argument of [format_html]: [conditional_escape]
    renders a lazily translated message and escapes it, escapes plain text,
    and leaves text marked safe as it is. *)
Definition help_text_markup (force_text : message -> text) (t : help_text)
  : markup :=
  match t with
  | LazyText m => Plain (force_text m)
  | Text m => m
  end.

(** [force_text] renders a lazily translated message in the active
    language. *)
Definition password_validators_help_text_html (force_text : message -> text)
    (password_validators : list Validator) : Result markup :=
  help_texts ← password_validators_help_texts password_validators;
  match help_texts with
  | [] => Ok (Plain [])
  | _ =>
      help_items ← format_html_join (py "") (py "<li>{}</li>")
                     (map (fun help_text => [help_text_markup force_text help_text])
                        help_texts);
      format_html (py "<ul>{}</ul>") [help_items]
  end.

(** ** Notions used to state the properties *)

(** [password] contains [k] consecutive occurrences of [c]. *)
Definition has_run (c : ascii) (k : nat) (password : text) : Prop :=
  ∃ before after, password = before ++ repeat c k ++ after.

(** The single error a call failed with. *)
Definition raised_error (r : Result unit) : list ValidationError :=
  match r with
  | Raise (ExnValidationError error) => [error]
  | _ => []
  end.

(** The errors the validators raise for [password] and [user], in the order
    of the validators. *)
Definition raised_errors (password : text) (user : option User)
    (validators : list Validator) : list ValidationError :=
  flat_map (fun v => raised_error (validate v password user)) validators.

(** One call of [validate] per validator, in order. *)
Definition calls_of (password : text) (user : option User)
    (validators : list Validator) : list Call :=
  map (fun v => {| call_receiver := v; call_password := password;
                   call_user := user |}) validators.

(** The validator meets the interface: [validate] passes or fails with a
    [ValidationError]. *)
Definition passes_or_fails (v : Validator) (password : text)
    (user : option User) : Prop :=
  validate v password user = Ok tt
  ∨ ∃ error, validate v password user = Raise (ExnValidationError error).

(** The validator built from a configuration record: its name resolves to a
    class, and the class called with the record's options returns it. *)
Definition constructed_from (import_string : text -> Result klass)
    (record : ValidatorConfig) (v : Validator) : Prop :=
  ∃ k, import_string (NAME record) = Ok k
       ∧ k (default ∅ (OPTIONS record)) = Ok v.

(** [part] is one of the strings the similarity validator compares the
    password with: the value of a configured attribute that is a non-empty
    string, or one of the pieces of that value. *)
Definition compared_part (user : User) (attribute_names : list text)
    (part : text) : Prop :=
  ∃ name s, In name attribute_names
            ∧ user_attrs user !! name = Some (VStr s)
            ∧ s ≠ []
            ∧ In part (re_split_nonword s ++ [s]).

(** The count fits an index. *)
Definition in_index_range (n : Z) : Prop := - sys_maxsize - 1 ≤ n ≤ sys_maxsize.

(** A list item of the help-text markup. *)
Definition help_text_item (force_text : message -> text) (t : help_text) : text :=
  py "<li>" ++ conditional_escape (help_text_markup force_text t) ++ py "</li>".

(** The failure of [NoRepeatsValidator.validate]. *)
Definition repeats_error (max_repeats : Z) : Result unit :=
  Raise (ExnValidationError (ValidationError_single
    (interpolate
       (ugettext_lazy
          "This password contains a character repeated more than %d times in a row.")
       (VInt max_repeats))
    "password_contains_repeats" [])).

(** How many times [c] occurs in [l]. *)
Abbreviation occurrences l c := (Z.of_nat (count_occ ascii_dec l c)).

(** What [quick_matches] reads for an element: the count left in [avail],
    or the full count when the element has not been met yet. *)
Definition available (full avail : gmap ascii Z) (c : ascii) : Z :=
  match avail !! c with
  | Some n => n
  | None => default 0 (full !! c)
  end.

(** The test of the similarity validator on one string. *)
Definition too_similar (max_similarity : value) (password part : text) : bool :=
  let similarity := quick_ratio (str_lower password) (str_lower part) in
  float_gt similarity max_similarity || Qeq_bool similarity 1
  || eq_int max_similarity 0.

(** The attribute is a non-empty string, and the test succeeds on its value
    or on one of its pieces. *)
Definition attribute_hits (max_similarity : value) (password : text)
    (user : User) (name : text) : bool :=
  match user_attrs user !! name with
  | Some (VStr s) =>
      match s with
      | [] => false
      | _ => existsb (too_similar max_similarity password) (re_split_nonword s ++ [s])
      end
  | _ => false
  end.

(** The failure of [UserAttributeSimilarityValidator.validate] for the
    attribute [name]. *)
Definition too_similar_error (user : User) (name : text) : Result unit :=
  verbose_name ← user_verbose_name user name;
  Raise (ExnValidationError (ValidationError_single
    (ugettext_lazy "The password is too similar to the %(verbose_name)s.")
    "password_too_similar"
    [("verbose_name", VStr verbose_name)])).

(** The parameters of the constructor of a class of this module. *)
Definition class_parameters (c : class_name) : list text :=
  match c with
  | CMinimumLength => [py "min_length"]
  | CUserAttributeSimilarity => [py "user_attributes"; py "max_similarity"]
  | CCommonPassword => [py "password_list_path"]
  | CNoRepeats => [py "max_repeats"]
  | _ => []
  end.

(** The validator defines [password_changed]. *)
Definition has_password_changed {W} (validator : HookedValidator W) : bool :=
  match password_changed_method validator with
  | Some _ => true
  | None => false
  end.

(** The number a value denotes, for the numbers. *)
Definition as_number (v : value) : option Q :=
  match v with
  | VInt n => Some (inject_Z n)
  | VFloat q => Some q
  | _ => None
  end.

(** A string without upper-case letters. *)
Definition is_lowercased (s : text) : Prop := str_lower s = s.

(** The default policy on the characters of a password: what the validators
    of [DEFAULT_AUTH_PASSWORD_VALIDATORS] ask of it, the list of common
    passwords being [passwords]. *)
Definition meets_default_policy (passwords : gset text) (password : text) : Prop :=
  10 ≤ Z.of_nat (length password)
  ∧ (str_strip (str_lower password) ∉ passwords)
  ∧ (∃ c, In c password ∧ char_isdigit c = true)
  ∧ (∃ c, In c password ∧ char_ispunctuation_or_space c = true)
  ∧ (∃ c, In c password ∧ char_isupper c = true)
  ∧ (∃ c, In c password ∧ char_islower c = true)
  ∧ (¬ ∃ c, In c password ∧ has_run c 3 password).

(** The validators built from [DEFAULT_AUTH_PASSWORD_VALIDATORS], the
    password list having been read as [passwords]. *)
Definition default_instances (passwords : gset text) : list Validator :=
  [ {| validate :=
         UserAttributeSimilarityValidator_validate DEFAULT_USER_ATTRIBUTES
           (VFloat (1 # 2));
       get_help_text := UserAttributeSimilarityValidator_get_help_text;
       attrs := {[ py "user_attributes" := DEFAULT_USER_ATTRIBUTES;
                   py "max_similarity" := VFloat (1 # 2) ]} |};
    {| validate := MinimumLengthValidator_validate (VInt 10);
       get_help_text := MinimumLengthValidator_get_help_text (VInt 10);
       attrs := {[ py "min_length" := VInt 10 ]} |};
    {| validate := CommonPasswordValidator_validate passwords;
       get_help_text := CommonPasswordValidator_get_help_text;
       attrs := ∅ |};
    {| validate := NumericPasswordValidator_validate;
       get_help_text := NumericPasswordValidator_get_help_text;
       attrs := ∅ |};
    {| validate := AtLeastOneDigitValidator_validate;
       get_help_text :=
         lazy_text (ugettext_lazy "Your password must contain at least one digit.");
       attrs := ∅ |};
    {| validate := AtLeastOnePunctuationCharacterValidator_validate;
       get_help_text :=
         lazy_text (ugettext_lazy
           "Your password must contain at least one punctuation character.");
       attrs := ∅ |};
    {| validate := AtLeastOneUppercaseCharacterValidator_validate;
       get_help_text :=
         lazy_text (ugettext_lazy
           "Your password must contain at least one uppercase character.");
       attrs := ∅ |};
    {| validate := AtLeastOneLowercaseCharacterValidator_validate;
       get_help_text :=
         lazy_text (ugettext_lazy
           "Your password must contain at least one lowercase character.");
       attrs := ∅ |};
    {| validate := NoRepeatsValidator_validate (VInt 2);
       get_help_text := NoRepeatsValidator_get_help_text (VInt 2);
       attrs := {[ py "max_repeats" := VInt 2 ]} |} ].

(** The user, if there is one, has no string attribute under a
    one-character name taken from [username]. *)
Definition no_letter_attribute (user : option User) : Prop :=
  ∀ u, user = Some u →
       ∀ c s, In c (py "username") → user_attrs u !! [c] ≠ Some (VStr s).

(** ** Sample data *)

Definition sample_fs : FileSystem :=
  {| gzip_read_splitlines := fun _ => Raise IOError;
     open_readlines := fun _ =>
       Ok [py "password" ++ ["010"%char]; py "123456" ++ ["010"%char]];
     module_directory := py "/srv/metashare/accounts" |}.

Definition sample_user (username : string) : User :=
  {| user_attrs := {[ py "username" := VStr (py username) ]};
     user_verbose_name := fun name => Ok name |}.

Definition sample_validator (c : klass) (kwargs : gmap text value) : Validator :=
  match c kwargs with
  | Ok v => v
  | Raise _ =>
      {| validate := fun _ _ => Ok tt;
         get_help_text := lazy_text (ugettext_lazy "");
         attrs := ∅ |}
  end.

Definition sample_A : Validator :=
  sample_validator MinimumLengthValidator {[ py "min_length" := VInt 10 ]}.
Definition sample_B : Validator :=
  sample_validator NoRepeatsValidator ∅.
Definition sample_C : Validator :=
  sample_validator AtLeastOneDigitValidator ∅.

Definition sample_D : Validator :=
  sample_validator NoRepeatsValidator {[ py "max_repeats" := VStr (py "2") ]}.

Definition sample_hookless (v : Validator) : HookedValidator (list text) :=
  {| hooked_validator := v; password_changed_method := None |}.

Definition sample_safe_help : Validator :=
  {| validate := fun _ _ => Ok tt;
     get_help_text := Ok (Text (Safe (py "<b>Be careful</b>")));
     attrs := ∅ |}.

Definition sample_no_help : Validator :=
  sample_validator NoRepeatsValidator {[ py "max_repeats" := VNone ]}.

Definition sample_bad_config : list ValidatorConfig :=
  [ {| NAME := dotted "NumericPasswordValidator";
       OPTIONS := Some {[ py "min_length" := VInt 3 ]} |};
    {| NAME := py "nowhere.NoSuchValidator"; OPTIONS := None |} ].

(** * Properties *)

(** ** Text *)

Lemma str_startswith_spec (sub s : text) :
  str_startswith sub s = true ↔ ∃ rest, s = sub ++ rest.
Proof.
  revert s. induction sub as [|a sub IH]; intros s; simpl.
  - split; [intros _; by exists s | done].
  - destruct s as [|b s].
    + split; [done | intros [rest H]; discriminate H].
    + destruct (decide (a = b)) as [->|Hne].
      * rewrite IH. split; intros [rest H]; exists rest.
        -- by rewrite H.
        -- by injection H.
      * split; [done | intros [rest H]; injection H; congruence].
Qed.

Lemma str_contains_spec (sub s : text) :
  str_contains sub s = true ↔ ∃ before after, s = before ++ sub ++ after.
Proof.
  induction s as [|b s IH]; simpl.
  - rewrite orb_false_r, str_startswith_spec. split.
    + intros [rest H]. by exists [], rest.
    + intros [before [after H]]. destruct before; [by exists after|discriminate H].
  - rewrite orb_true_iff, str_startswith_spec, IH. split.
    + intros [[rest H] | [before [after H]]].
      * by exists [], rest.
      * exists (b :: before), after. by rewrite H.
    + intros [before [after H]]. destruct before as [|b' before].
      * left. by exists after.
      * right. exists before, after. by injection H.
Qed.

(** ** MinimumLengthValidator *)

(** C7. For every integer [min_length] and every password,
    [MinimumLengthValidator.validate] fails with code [password_too_short]
    when the length of the password is strictly less than [min_length], and
    passes when the length is greater than or equal to [min_length]. *)
Theorem MinimumLengthValidator_validate_spec
    (min_length : Z) (password : text) (user : option User) :
  (Z.of_nat (length password) < min_length →
     error_code (MinimumLengthValidator_validate (VInt min_length) password user)
     = Some "password_too_short")
  ∧ (min_length ≤ Z.of_nat (length password) →
     MinimumLengthValidator_validate (VInt min_length) password user = Ok tt).
Proof.
  unfold MinimumLengthValidator_validate; simpl.
  split; intros H.
  - apply Z.ltb_lt in H. by rewrite H.
  - apply Z.ltb_ge in H. by rewrite H.
Qed.

Lemma MinimumLengthValidator_validate_witness :
  error_code (MinimumLengthValidator_validate (VInt 8) (py "short") None)
  = Some "password_too_short"
  ∧ MinimumLengthValidator_validate (VInt 8) (py "long enough") None = Ok tt.
Proof.
  split.
  - apply (proj1 (MinimumLengthValidator_validate_spec 8 (py "short") None)).
    simpl. lia.
  - apply (proj2 (MinimumLengthValidator_validate_spec 8 (py "long enough") None)).
    simpl. lia.
Defined.

(** ** NumericPasswordValidator *)

Lemma forallb_char_isdigit (password : text) :
  forallb char_isdigit password = true
  ↔ ∀ c, In c password → char_isdigit c = true.
Proof. apply forallb_forall. Qed.

(** C4, as stated, fails on the empty password: all of its characters are
    digits, and the validator passes. *)
Lemma NumericPasswordValidator_empty_passes :
  (∀ c, In c (py "") → char_isdigit c = true)
  ∧ NumericPasswordValidator_validate (py "") None = Ok tt.
Proof. split; [intros c [] | reflexivity]. Qed.

(** C4, amended. For every non-empty string all of whose characters are
    digits, [NumericPasswordValidator.validate] fails with code
    [password_entirely_numeric]; for every string containing at least one
    character that is not a digit, and for the empty string, it passes. *)
Theorem NumericPasswordValidator_validate_spec
    (password : text) (user : option User) :
  (password ≠ [] → (∀ c, In c password → char_isdigit c = true) →
     error_code (NumericPasswordValidator_validate password user)
     = Some "password_entirely_numeric")
  ∧ ((∃ c, In c password ∧ char_isdigit c = false) →
     NumericPasswordValidator_validate password user = Ok tt)
  ∧ (password = [] → NumericPasswordValidator_validate password user = Ok tt).
Proof.
  unfold NumericPasswordValidator_validate, str_isdigit.
  split; [|split].
  - intros Hne Hall. apply forallb_char_isdigit in Hall.
    destruct password; [done|]. by rewrite Hall.
  - intros (c & Hin & Hc).
    destruct password as [|a password]; [done|].
    destruct (forallb char_isdigit (a :: password)) eqn:Hall; [|done].
    rewrite forallb_char_isdigit in Hall. rewrite (Hall c Hin) in Hc. discriminate.
  - by intros ->.
Qed.

Lemma NumericPasswordValidator_validate_witness :
  error_code (NumericPasswordValidator_validate (py "20261103") None)
  = Some "password_entirely_numeric"
  ∧ NumericPasswordValidator_validate (py "2026-11-03") None = Ok tt
  ∧ NumericPasswordValidator_validate [] None = Ok tt.
Proof.
  pose proof (NumericPasswordValidator_validate_spec (py "20261103") None) as (H1 & _ & _).
  pose proof (NumericPasswordValidator_validate_spec (py "2026-11-03") None) as (_ & H2 & _).
  pose proof (NumericPasswordValidator_validate_spec [] None) as (_ & _ & H3).
  split; [|split].
  - apply H1; [done|]. apply forallb_char_isdigit. reflexivity.
  - apply H2. exists "-"%char. split; [simpl; tauto | reflexivity].
  - by apply H3.
Defined.

(** ** CommonPasswordValidator *)

(** C6. For every loaded password set and every candidate password,
    [CommonPasswordValidator.validate] fails with code [password_too_common]
    exactly when the lowercased, whitespace-trimmed candidate is a member of
    the set, and passes otherwise; with the set of [password] and [123456] it
    fails on [Password] and on [ password ] and passes on [Xk9!qzT2]. *)
Theorem CommonPasswordValidator_validate_spec
    (passwords : gset text) (password : text) (user : option User) :
  (error_code (CommonPasswordValidator_validate passwords password user)
   = Some "password_too_common"
   ↔ str_strip (str_lower password) ∈ passwords)
  ∧ (CommonPasswordValidator_validate passwords password user = Ok tt
     ↔ str_strip (str_lower password) ∉ passwords)
  ∧ (let loaded : gset text := {[ py "password"; py "123456" ]} in
     error_code (CommonPasswordValidator_validate loaded (py "Password") user)
     = Some "password_too_common"
     ∧ error_code (CommonPasswordValidator_validate loaded (py " password ") user)
       = Some "password_too_common"
     ∧ CommonPasswordValidator_validate loaded (py "Xk9!qzT2") user = Ok tt).
Proof.
  unfold CommonPasswordValidator_validate.
  split; [|split].
  - destruct (decide (str_strip (str_lower password) ∈ passwords)); simpl;
      split; done.
  - destruct (decide (str_strip (str_lower password) ∈ passwords)); simpl;
      split; done.
  - by vm_compute.
Qed.

(** The set built by the constructor from the lines of a password list that
    is not gzipped. *)
Lemma CommonPasswordValidator_init_sample (path : value) :
  CommonPasswordValidator_init sample_fs path
  = Ok (list_to_set [py "password"; py "123456"]).
Proof. reflexivity. Qed.

(** ** NoRepeatsValidator *)

Lemma str_mul_in_range (c : ascii) (n : Z) :
  in_index_range n → str_mul c n = Ok (repeat c (Z.to_nat n)).
Proof.
  unfold in_index_range, str_mul. intros [Hlow Hhigh].
  assert ((n <? - sys_maxsize - 1) = false) as -> by (apply Z.ltb_ge; lia).
  assert ((sys_maxsize <? n) = false) as -> by (apply Z.ltb_ge; lia).
  done.
Qed.

Lemma str_mul_out_of_range (c : ascii) (n : Z) :
  ¬ in_index_range n → str_mul c n = Raise OverflowError.
Proof.
  unfold in_index_range, str_mul. intros Hout.
  destruct (n <? - sys_maxsize - 1) eqn:Hlow; [done|].
  destruct (sys_maxsize <? n) eqn:Hhigh; [done|].
  apply Z.ltb_ge in Hlow, Hhigh. lia.
Qed.

(** The loop raises as soon as one of the characters has its run in the
    password; which one comes first does not change the outcome. *)
Lemma NoRepeatsValidator_chars_existsb (max_repeats : Z) (password : text)
    (chars : list ascii) :
  in_index_range (max_repeats + 1) →
  NoRepeatsValidator_chars (VInt max_repeats) password chars
  = if existsb
         (fun c => str_contains (repeat c (Z.to_nat (max_repeats + 1))) password)
         chars
    then repeats_error max_repeats
    else Ok tt.
Proof.
  intros Hrange. induction chars as [|c chars IH]; simpl; [done|].
  rewrite (str_mul_in_range c _ Hrange). simpl.
  destruct (str_contains (repeat c (Z.to_nat (max_repeats + 1))) password);
    simpl; done.
Qed.

Lemma NoRepeatsValidator_chars_order (max_repeats : Z) (password : text)
    (chars chars' : list ascii) :
  in_index_range (max_repeats + 1) →
  (∀ c, In c chars ↔ In c chars') →
  NoRepeatsValidator_chars (VInt max_repeats) password chars
  = NoRepeatsValidator_chars (VInt max_repeats) password chars'.
Proof.
  intros Hrange Hsame. rewrite !NoRepeatsValidator_chars_existsb by done.
  set (test := fun c =>
         str_contains (repeat c (Z.to_nat (max_repeats + 1))) password).
  destruct (existsb test chars) eqn:H, (existsb test chars') eqn:H'; try done.
  - apply existsb_exists in H as (c & Hin & Hc).
    assert (existsb test chars' = true) as E
      by (apply existsb_exists; exists c; split; [apply (proj1 (Hsame c) Hin)|done]).
    congruence.
  - apply existsb_exists in H' as (c & Hin & Hc).
    assert (existsb test chars = true) as E
      by (apply existsb_exists; exists c; split; [apply (proj2 (Hsame c) Hin)|done]).
    congruence.
Qed.

Lemma In_str_set (c : ascii) (s : text) : In c (str_set s) ↔ In c s.
Proof.
  unfold str_set. rewrite <- !list_elem_of_In. apply elem_of_remove_dups.
Qed.

Lemma existsb_run_spec (k : nat) (password : text) :
  existsb (fun c => str_contains (repeat c k) password) (str_set password) = true
  ↔ ∃ c, In c password ∧ has_run c k password.
Proof.
  rewrite existsb_exists. unfold has_run.
  split; intros (c & Hin & H); exists c.
  - split; [apply (proj1 (In_str_set c password) Hin) |].
    apply (proj1 (str_contains_spec _ _) H).
  - split; [apply (proj2 (In_str_set c password) Hin) |].
    apply (proj2 (str_contains_spec _ _) H).
Qed.

Lemma has_run_length (c : ascii) (k : nat) (password : text) :
  has_run c k password → (k ≤ length password)%nat.
Proof.
  intros (before & after & ->). rewrite !length_app, repeat_length. lia.
Qed.

Lemma str_set_nonempty (password : text) :
  password ≠ [] → ∃ c chars, str_set password = c :: chars.
Proof.
  destruct password as [|a password]; [done|]. intros _.
  destruct (str_set (a :: password)) as [|c chars] eqn:H; [|by exists c, chars].
  assert (In a (str_set (a :: password))) as Hin
    by (apply In_str_set; by left).
  rewrite H in Hin. destruct Hin.
Qed.

(** A count that does not fit an index: building the run fails for the first
    character of the password. *)
Lemma NoRepeatsValidator_overflow (max_repeats : Z) (password : text) user :
  ¬ in_index_range (max_repeats + 1) → password ≠ [] →
  NoRepeatsValidator_validate (VInt max_repeats) password user
  = Raise OverflowError.
Proof.
  intros Hout Hne. unfold NoRepeatsValidator_validate.
  destruct (str_set_nonempty password Hne) as (c & chars & ->).
  simpl. by rewrite (str_mul_out_of_range c _ Hout).
Qed.

(** C5, as stated, fails for a [max_repeats] beyond the index range: no
    character of the password [a] comes [2 ^ 63 + 1] times in a row, and the
    validator does not pass: it raises [OverflowError]. *)
Lemma NoRepeatsValidator_OverflowError :
  (¬ ∃ c, In c (py "a") ∧ has_run c (Z.to_nat (2 ^ 63 + 1)) (py "a"))
  ∧ NoRepeatsValidator_validate (VInt (2 ^ 63)) (py "a") None
    = Raise OverflowError.
Proof.
  split.
  - intros (c & _ & Hrun). apply has_run_length in Hrun.
    change (length (py "a")) with 1%nat in Hrun. lia.
  - apply NoRepeatsValidator_overflow; [|discriminate].
    unfold in_index_range, sys_maxsize. lia.
Qed.

(** C5, amended. For every password and every integer [max_repeats] such
    that [max_repeats + 1] fits an index and [max_repeats] is at most the
    length of the password, [NoRepeatsValidator.validate] fails with code
    [password_contains_repeats] exactly when some character of the password
    occurs [max_repeats + 1] times consecutively somewhere in the password,
    and passes otherwise (for a negative [max_repeats + 1] the run is the
    empty one, as [c * n] is).  When [max_repeats + 1] does not fit an index
    and the password is not empty, it raises [OverflowError].  With
    [max_repeats = 2] it fails on [aaab] and passes on [aabaa]. *)
Theorem NoRepeatsValidator_validate_spec
    (max_repeats : Z) (password : text) (user : option User) :
  (in_index_range (max_repeats + 1) →
   max_repeats ≤ Z.of_nat (length password) →
   (error_code (NoRepeatsValidator_validate (VInt max_repeats) password user)
    = Some "password_contains_repeats"
    ↔ ∃ c, In c password ∧ has_run c (Z.to_nat (max_repeats + 1)) password)
   ∧ (NoRepeatsValidator_validate (VInt max_repeats) password user = Ok tt
      ↔ ¬ ∃ c, In c password ∧ has_run c (Z.to_nat (max_repeats + 1)) password))
  ∧ (¬ in_index_range (max_repeats + 1) → password ≠ [] →
     NoRepeatsValidator_validate (VInt max_repeats) password user
     = Raise OverflowError)
  ∧ error_code (NoRepeatsValidator_validate (VInt 2) (py "aaab") user)
    = Some "password_contains_repeats"
  ∧ NoRepeatsValidator_validate (VInt 2) (py "aabaa") user = Ok tt.
Proof.
  split; [|split; [apply NoRepeatsValidator_overflow | split; reflexivity]].
  intros Hrange _. unfold NoRepeatsValidator_validate.
  rewrite NoRepeatsValidator_chars_existsb by done.
  rewrite <- existsb_run_spec.
  destruct (existsb _ _); simpl; split; split; done.
Qed.

Lemma NoRepeatsValidator_validate_spec_witness :
  error_code (NoRepeatsValidator_validate (VInt 1) (py "aab") None)
  = Some "password_contains_repeats"
  ∧ NoRepeatsValidator_validate (VInt (2 ^ 64)) (py "aab") None
    = Raise OverflowError.
Proof.
  destruct (NoRepeatsValidator_validate_spec 1 (py "aab") None)
    as (Hin & _ & _ & _).
  destruct (NoRepeatsValidator_validate_spec (2 ^ 64) (py "aab") None)
    as (_ & Hout & _ & _).
  split.
  - apply Hin.
    + unfold in_index_range, sys_maxsize. lia.
    + simpl. lia.
    + exists "a"%char. split; [by left|]. by exists [], (py "b").
  - apply Hout; [|discriminate].
    unfold in_index_range, sys_maxsize. lia.
Defined.

(** ** The orchestrator *)

Section Orchestrator.

Variable default_validators : Result (list Validator).
Variables (password : text) (user : option User).

(** One turn of the loop, for a validator that meets the interface. *)
Lemma validate_password_loop_step validator rest errors calls :
  passes_or_fails validator password user →
  validate_password_loop password user (validator :: rest) errors calls
  = validate_password_loop password user rest
      (errors ++ raised_error (validate validator password user))
      (calls ++ calls_of password user [validator]).
Proof.
  intros [Hpass | [error Hfail]]; simpl;
    unfold mbind, Traced_bind, try_except_ValidationError, call_validate; simpl.
  - rewrite Hpass. simpl. by rewrite app_nil_r.
  - rewrite Hfail. reflexivity.
Qed.

(** A validator that raises anything else ends the loop: the exception
    propagates and the validators after it are not called. *)
Lemma validate_password_loop_propagates validator rest errors calls e :
  validate validator password user = Raise e →
  (∀ error, e ≠ ExnValidationError error) →
  validate_password_loop password user (validator :: rest) errors calls
  = (Raise e, calls ++ calls_of password user [validator]).
Proof.
  intros Hraise Hother. simpl.
  unfold mbind, Traced_bind, try_except_ValidationError, call_validate; simpl.
  rewrite Hraise. destruct e; try done. by destruct (Hother error).
Qed.

Lemma validate_password_loop_spec validators errors calls :
  (∀ v, In v validators → passes_or_fails v password user) →
  validate_password_loop password user validators errors calls
  = (Ok (errors ++ raised_errors password user validators),
     calls ++ calls_of password user validators).
Proof.
  revert errors calls.
  induction validators as [|validator rest IH]; intros errors calls Hall.
  - simpl. by rewrite !app_nil_r.
  - rewrite validate_password_loop_step by (apply Hall; by left).
    rewrite IH by (intros v Hv; apply Hall; by right).
    simpl. by rewrite <- !app_assoc.
Qed.

(** C1. For every password, user and ordered sequence of validators (each of
    which passes or fails with a [ValidationError]), [validate_password] calls
    [validate] on every validator, in order, also after earlier ones failed,
    accumulates the raised errors in validator order, and raises a single
    [ValidationError] wrapping exactly those errors if at least one validator
    failed; if none failed it returns [None].  With validators [A] (fails),
    [B] (passes), [C] (fails) the aggregate holds exactly the errors of [A]
    and [C], in this order, and all three are called. *)
Theorem validate_password_spec validators calls :
  (∀ v, In v validators → passes_or_fails v password user) →
  validate_password default_validators password user (Some validators) calls
  = (match raised_errors password user validators with
     | [] => Ok tt
     | errors => Raise (ExnValidationError (ValidationError_list errors))
     end,
     calls ++ calls_of password user validators)
  ∧ ∀ A B C error_A error_C,
      validators = [A; B; C] →
      validate A password user = Raise (ExnValidationError error_A) →
      validate B password user = Ok tt →
      validate C password user = Raise (ExnValidationError error_C) →
      validate_password default_validators password user (Some validators) calls
      = (Raise (ExnValidationError (ValidationError_list [error_A; error_C])),
         calls ++ calls_of password user [A; B; C]).
Proof.
  intros Hall.
  assert (validate_password default_validators password user (Some validators) calls
          = (match raised_errors password user validators with
             | [] => Ok tt
             | errors => Raise (ExnValidationError (ValidationError_list errors))
             end,
             calls ++ calls_of password user validators)) as Hgeneral.
  { unfold validate_password. unfold mbind at 1, Traced_bind at 1. simpl.
    unfold mbind, Traced_bind.
    rewrite validate_password_loop_spec by done. simpl.
    by destruct (raised_errors password user validators). }
  split; [done|].
  intros A B C error_A error_C -> HA HB HC.
  rewrite Hgeneral. unfold raised_errors. simpl.
  by rewrite HA, HB, HC.
Qed.

End Orchestrator.

Lemma validate_password_spec_witness :
  validate_password (Ok []) (py "secret") None (Some [sample_A; sample_B; sample_C]) []
  = (Raise (ExnValidationError (ValidationError_list
       (raised_errors (py "secret") None [sample_A; sample_C]))),
     calls_of (py "secret") None [sample_A; sample_B; sample_C]).
Proof.
  assert (∀ v, In v [sample_A; sample_B; sample_C] →
               passes_or_fails v (py "secret") None) as Hall.
  { intros v [<- | [<- | [<- | []]]].
    - right. eexists. reflexivity.
    - left. reflexivity.
    - right. eexists. reflexivity. }
  exact (proj1 (validate_password_spec (Ok []) (py "secret") None
                  [sample_A; sample_B; sample_C] [] Hall)).
Defined.

(** ** The registry *)

Section Registry.

Variable import_string : text -> Result klass.

Lemma get_password_validators_loop_built pre built rest validators :
  Forall2 (constructed_from import_string) pre built →
  get_password_validators_loop import_string (pre ++ rest) validators
  = get_password_validators_loop import_string rest (validators ++ built).
Proof.
  intros Hbuilt. revert validators.
  induction Hbuilt as [|record v pre built (k & Hk & Hv) _ IH]; intros validators.
  - simpl. by rewrite app_nil_r.
  - simpl. rewrite Hk. simpl. rewrite Hv. simpl.
    rewrite IH. by rewrite <- app_assoc.
Qed.

Lemma get_password_validators_loop_Ok config validators result :
  get_password_validators_loop import_string config validators = Ok result →
  ∃ built, result = validators ++ built
           ∧ Forall2 (constructed_from import_string) config built.
Proof.
  revert validators.
  induction config as [|record config IH]; intros validators; simpl.
  - intros [= <-]. exists []. by rewrite app_nil_r.
  - destruct (import_string (NAME record)) as [k|e] eqn:Hk; simpl.
    + destruct (k (default ∅ (OPTIONS record))) as [v|e] eqn:Hv; simpl; [|done].
      intros H. apply IH in H as (built & -> & Hbuilt).
      exists (v :: built). split; [by rewrite <- app_assoc|].
      constructor; [by exists k | done].
    + destruct e; done.
Qed.

Lemma name_reported (name : text) :
  ∃ before after, could_not_be_imported name = before ++ name ++ after.
Proof. unfold could_not_be_imported. by eexists _, _. Qed.

Lemma get_password_validators_Ok config validators :
  get_password_validators import_string config = Ok validators
  ↔ Forall2 (constructed_from import_string) config validators.
Proof.
  unfold get_password_validators. split.
  - intros H. by apply get_password_validators_loop_Ok in H as (built & -> & H).
  - intros H.
    rewrite <- (app_nil_r config).
    rewrite (get_password_validators_loop_built _ _ _ _ H). reflexivity.
Qed.

(** C3, amended. [get_password_validators] fails with [ImproperlyConfigured],
    its message reporting the offending name, when a record's name cannot be
    resolved and every record before it resolved and was constructed; it
    returns validators exactly when every name resolves and every class,
    called with its record's options as keyword arguments, returns, and these
    are the validators it returns, in the order of the records; an exception
    raised by a class called with the options propagates. *)
Theorem get_password_validators_spec (config : list ValidatorConfig) :
  (∀ pre record post built name,
     config = pre ++ record :: post →
     Forall2 (constructed_from import_string) pre built →
     import_string (NAME record) = Raise (ImportError name) →
     get_password_validators import_string config
     = Raise (ImproperlyConfigured (could_not_be_imported (NAME record)))
     ∧ ∃ before after,
         could_not_be_imported (NAME record) = before ++ NAME record ++ after)
  ∧ (∀ validators,
       get_password_validators import_string config = Ok validators
       ↔ Forall2 (constructed_from import_string) config validators)
  ∧ (∀ pre record post built k e,
       config = pre ++ record :: post →
       Forall2 (constructed_from import_string) pre built →
       import_string (NAME record) = Ok k →
       k (default ∅ (OPTIONS record)) = Raise e →
       get_password_validators import_string config = Raise e).
Proof.
  split; [|split; [apply get_password_validators_Ok|]];
    unfold get_password_validators.
  - intros pre record post built name -> Hbuilt Hname.
    split; [|apply name_reported].
    rewrite (get_password_validators_loop_built _ _ _ _ Hbuilt). simpl.
    by rewrite Hname.
  - intros pre record post built k e -> Hbuilt Hk He.
    rewrite (get_password_validators_loop_built _ _ _ _ Hbuilt). simpl.
    rewrite Hk. simpl. by rewrite He.
Qed.

End Registry.

(** C3, as stated, fails when a class rejects its options before the
    unresolvable name is reached: the second name of the configuration cannot
    be resolved, and the call fails with the [TypeError] of the first. *)
Lemma get_password_validators_TypeError_first :
  import_string_module sample_fs (py "nowhere.NoSuchValidator")
  = Raise (ImportError (py "nowhere.NoSuchValidator"))
  ∧ In {| NAME := py "nowhere.NoSuchValidator"; OPTIONS := None |} sample_bad_config
  ∧ get_password_validators (import_string_module sample_fs) sample_bad_config
    = Raise TypeError.
Proof. split; [reflexivity | split; [simpl; tauto | reflexivity]]. Qed.

Lemma get_password_validators_spec_witness :
  get_password_validators (import_string_module sample_fs)
    [ {| NAME := dotted "NoRepeatsValidator"; OPTIONS := None |};
      {| NAME := py "nowhere.NoSuchValidator"; OPTIONS := None |} ]
  = Raise (ImproperlyConfigured (could_not_be_imported (py "nowhere.NoSuchValidator"))).
Proof.
  refine (proj1 (proj1 (get_password_validators_spec (import_string_module sample_fs) _)
            [ {| NAME := dotted "NoRepeatsValidator"; OPTIONS := None |} ]
            {| NAME := py "nowhere.NoSuchValidator"; OPTIONS := None |}
            [] [sample_B] (py "nowhere.NoSuchValidator") _ _ _)).
  - reflexivity.
  - constructor; [|constructor]. exists NoRepeatsValidator. split; reflexivity.
  - reflexivity.
Defined.

(** ** Constructor options *)

Lemma bind_kwargs_Ok params kwargs args :
  bind_kwargs params kwargs = Ok args →
  ∀ k val, kwargs !! k = Some val → k ∈ params.*1 ∧ bound args k = val.
Proof.
  unfold bind_kwargs, bound. case_decide as Hdom; [|done].
  intros [= <-] k val Hk. split.
  - assert (k ∈ dom kwargs) as Hin by (apply elem_of_dom; eauto).
    apply Hdom in Hin. by apply elem_of_list_to_set in Hin.
  - by rewrite (lookup_union_Some_l _ _ _ _ Hk).
Qed.

(** What a class of this module stores of the options it is called with:
    every option, but for the path of the password list. *)
Lemma class_of_stores_options fs c kwargs v :
  class_of fs c kwargs = Ok v →
  ∀ k val, kwargs !! k = Some val → k ≠ py "password_list_path" →
           attrs v !! k = Some val.
Proof.
  intros Hv k val Hk Hpath.
  destruct c; simpl in Hv;
    unfold MinimumLengthValidator, UserAttributeSimilarityValidator,
      CommonPasswordValidator, NumericPasswordValidator,
      AtLeastOneDigitValidator, AtLeastOnePunctuationCharacterValidator,
      AtLeastOneUppercaseCharacterValidator,
      AtLeastOneLowercaseCharacterValidator, NoRepeatsValidator in Hv;
    match type of Hv with
    | context [bind_kwargs ?params kwargs] =>
        destruct (bind_kwargs params kwargs) as [args|] eqn:Hargs; [|done];
        destruct (bind_kwargs_Ok _ _ _ Hargs k val Hk) as [Hin Hbound]
    end;
    simpl in Hv, Hin.
  - injection Hv as <-. simpl. set_unfold in Hin.
    destruct Hin as [-> | []]. rewrite lookup_singleton_eq. by rewrite Hbound.
  - injection Hv as <-. simpl. set_unfold in Hin.
    destruct Hin as [-> | [-> | []]].
    + rewrite lookup_insert_eq. by rewrite Hbound.
    + rewrite lookup_insert_ne by done. rewrite lookup_singleton_eq.
      by rewrite Hbound.
  - set_unfold in Hin. by destruct Hin as [-> | []].
  - by set_unfold in Hin.
  - by set_unfold in Hin.
  - by set_unfold in Hin.
  - by set_unfold in Hin.
  - by set_unfold in Hin.
  - injection Hv as <-. simpl. set_unfold in Hin.
    destruct Hin as [-> | []]. rewrite lookup_singleton_eq. by rewrite Hbound.
Qed.

(** The classes that [import_string_module] resolves names to. *)
Lemma import_string_module_class fs name k :
  import_string_module fs name = Ok k → ∃ c, k = class_of fs c.
Proof.
  unfold import_string_module.
  destruct (find _ class_names) as [c|]; [|done].
  intros [= <-]. by exists c.
Qed.

(** C9. For every configuration whose names all resolve, to classes of this
    module, the validators returned by [get_password_validators] store the
    options of their configuration records: reading an option back from the
    validator built from a record gives the value the record has for it.
    The one option that is not stored is the [password_list_path] of
    [CommonPasswordValidator]. *)
Theorem get_password_validators_round_trip
    (fs : FileSystem) (import_string : text -> Result klass)
    (config : list ValidatorConfig) (validators : list Validator) :
  (∀ record, In record config →
     ∃ c, import_string (NAME record) = Ok (class_of fs c)) →
  get_password_validators import_string config = Ok validators →
  Forall2
    (fun record v =>
       ∀ k val, default ∅ (OPTIONS record) !! k = Some val →
                k ≠ py "password_list_path" →
                attrs v !! k = Some val)
    config validators.
Proof.
  intros Hresolve Hget.
  apply get_password_validators_Ok in Hget.
  induction Hget as [|record v config validators (k & Hk & Hv) _ IH];
    constructor.
  - destruct (Hresolve record) as [c Hc]; [by left|].
    rewrite Hk in Hc. injection Hc as ->.
    eapply class_of_stores_options, Hv.
  - apply IH. intros r Hr. apply Hresolve. by right.
Qed.

Lemma get_password_validators_round_trip_witness :
  ∃ validators,
    get_password_validators (import_string_module sample_fs)
      DEFAULT_AUTH_PASSWORD_VALIDATORS = Ok validators
    ∧ Forall2
        (fun record v =>
           ∀ k val, default ∅ (OPTIONS record) !! k = Some val →
                    k ≠ py "password_list_path" →
                    attrs v !! k = Some val)
        DEFAULT_AUTH_PASSWORD_VALIDATORS validators.
Proof.
  eexists. split; [reflexivity|].
  apply (get_password_validators_round_trip sample_fs
           (import_string_module sample_fs)); [|reflexivity].
  intros record Hin. simpl in Hin.
  destruct Hin as [<-|[<-|[<-|[<-|[<-|[<-|[<-|[<-|[<-|[]]]]]]]]]].
  - by exists CUserAttributeSimilarity.
  - by exists CMinimumLength.
  - by exists CCommonPassword.
  - by exists CNumericPassword.
  - by exists CAtLeastOneDigit.
  - by exists CAtLeastOnePunctuationCharacter.
  - by exists CAtLeastOneUppercaseCharacter.
  - by exists CAtLeastOneLowercaseCharacter.
  - by exists CNoRepeats.
Defined.

(** ** The help-text aggregator *)

Lemma password_validators_help_texts_loop_Ok validators texts help_texts :
  Forall2 (fun v t => get_help_text v = Ok t) validators texts →
  password_validators_help_texts_loop validators help_texts
  = Ok (help_texts ++ texts).
Proof.
  intros Hall. revert help_texts.
  induction Hall as [|v t validators texts Hv _ IH]; intros help_texts.
  - simpl. by rewrite app_nil_r.
  - simpl. rewrite Hv. simpl. rewrite IH. by rewrite <- app_assoc.
Qed.

Lemma password_validators_help_texts_loop_Raise
    before v after texts e help_texts :
  Forall2 (fun v t => get_help_text v = Ok t) before texts →
  get_help_text v = Raise e →
  password_validators_help_texts_loop (before ++ v :: after) help_texts
  = Raise e.
Proof.
  intros Hall He. revert help_texts.
  induction Hall as [|v' t validators texts Hv _ IH]; intros help_texts.
  - simpl. by rewrite He.
  - simpl. rewrite Hv. simpl. apply IH.
Qed.

Lemma str_join_empty (items : list text) : str_join [] items = concat items.
Proof.
  induction items as [|item [|item' items] IH]; [done| |].
  - simpl. by rewrite app_nil_r.
  - change (item ++ [] ++ str_join [] (item' :: items) = item ++ concat (item' :: items)).
    by rewrite IH.
Qed.

(** Each help text becomes one list item, escaped unless it is marked
    safe. *)
Lemma list_items_spec (help_texts : list markup) :
  mapM (fun args => markup_text <$> format_html (py "<li>{}</li>") args)
    (map (fun help_text => [help_text]) help_texts)
  = Ok (map (fun help_text =>
               py "<li>" ++ conditional_escape help_text ++ py "</li>")
          help_texts).
Proof.
  induction help_texts as [|help_text help_texts IH]; [done|].
  simpl. simpl in IH. rewrite IH. simpl.
  reflexivity.
Qed.

Lemma format_html_join_items (help_texts : list markup) :
  format_html_join (py "") (py "<li>{}</li>")
    (map (fun help_text => [help_text]) help_texts)
  = Ok (Safe (concat (map (fun help_text =>
                             py "<li>" ++ conditional_escape help_text
                             ++ py "</li>")
                        help_texts))).
Proof.
  unfold format_html_join. rewrite list_items_spec.
  change (Ok (Safe (str_join [] (map (fun help_text =>
                                        py "<li>" ++ conditional_escape help_text
                                        ++ py "</li>")
                                   help_texts)))
          = Ok (Safe (concat (map (fun help_text =>
                                     py "<li>" ++ conditional_escape help_text
                                     ++ py "</li>")
                                help_texts)))).
  by rewrite str_join_empty.
Qed.

Lemma format_html_ul (help_items : text) :
  format_html (py "<ul>{}</ul>") [Safe help_items]
  = Ok (Safe (py "<ul>" ++ help_items ++ py "</ul>")).
Proof. reflexivity. Qed.

(** No character with a meaning in markup is left in escaped text. *)
Lemma escape_neutralizes (s : text) (c : ascii) :
  In c (escape s) →
  c ≠ "<"%char ∧ c ≠ ">"%char ∧ c ≠ double_quote ∧ c ≠ "'"%char.
Proof.
  unfold escape. rewrite in_flat_map. intros (x & _ & Hc).
  unfold escape_char in Hc.
  repeat case_decide;
    try (simpl in Hc; intuition (subst; discriminate)).
  simpl in Hc. destruct Hc as [<- | []]. done.
Qed.

(** The markup for help texts that were all returned. *)
Lemma password_validators_help_text_html_Ok
    (force_text : message -> text) validators texts :
  Forall2 (fun v t => get_help_text v = Ok t) validators texts →
  texts ≠ [] →
  password_validators_help_text_html force_text validators
  = Ok (Safe (py "<ul>" ++ flat_map (help_text_item force_text) texts
              ++ py "</ul>")).
Proof.
  intros Hall Hne. unfold password_validators_help_text_html.
  unfold password_validators_help_texts.
  rewrite (password_validators_help_texts_loop_Ok _ _ _ Hall).
  change (Ok ([] ++ texts) ≫= ?k) with (k texts). cbv beta.
  destruct texts as [|t ts] eqn:E; [done|]. rewrite <- E.
  rewrite <- (map_map (help_text_markup force_text) (fun m => [m])).
  rewrite format_html_join_items.
  change (format_html (py "<ul>{}</ul>")
            [Safe (concat (map (fun help_text =>
                                  py "<li>" ++ conditional_escape help_text
                                  ++ py "</li>")
                             (map (help_text_markup force_text) texts)))]
          = Ok (Safe (py "<ul>" ++ flat_map (help_text_item force_text) texts
                      ++ py "</ul>"))).
  rewrite format_html_ul, map_map, flat_map_concat_map. reflexivity.
Qed.

(** C8, as stated, fails twice.  A help text that is marked safe goes into
    its list item as it is, not escaped.  And a validator whose
    [get_help_text] raises, as that of [NoRepeatsValidator] constructed with
    [max_repeats = None], makes the call raise: no markup is returned. *)
Lemma password_validators_help_text_html_not_as_stated :
  (markup_text <$>
     password_validators_help_text_html (fun _ => py "help") [sample_safe_help]
   = Ok (py "<ul><li><b>Be careful</b></li></ul>")
   ∧ escape (py "<b>Be careful</b>") ≠ py "<b>Be careful</b>")
  ∧ (NoRepeatsValidator {[ py "max_repeats" := VNone ]} = Ok sample_no_help
     ∧ password_validators_help_text_html (fun _ => py "help") [sample_no_help]
       = Raise TypeError).
Proof.
  split; [split; [reflexivity | discriminate] | split; reflexivity].
Qed.

(** C8, amended. [password_validators_help_texts] returns the empty
    sequence for no validators, and [password_validators_help_text_html] the
    empty string.  When every [get_help_text] returns,
    [password_validators_help_texts] returns the help texts in configured
    order, and [password_validators_help_text_html] returns the empty string
    if there are none and otherwise an unordered list with one item per help
    text, in configured order; the item holds the help text escaped, unless
    the help text is marked safe: then it holds it as it is.  An exception
    raised by a [get_help_text] comes out of both functions. *)
Theorem password_validators_help_text_html_spec
    (force_text : message -> text) (validators : list Validator) :
  (password_validators_help_texts [] = Ok []
   ∧ password_validators_help_text_html force_text [] = Ok (Plain (py "")))
  ∧ (∀ texts,
       Forall2 (fun v t => get_help_text v = Ok t) validators texts →
       password_validators_help_texts validators = Ok texts
       ∧ (texts = [] →
          markup_text <$> password_validators_help_text_html force_text validators
          = Ok (py ""))
       ∧ (texts ≠ [] →
          markup_text <$> password_validators_help_text_html force_text validators
          = Ok (py "<ul>" ++ flat_map (help_text_item force_text) texts
                ++ py "</ul>")))
  ∧ (∀ m s,
       help_text_item force_text (LazyText m)
       = py "<li>" ++ escape (force_text m) ++ py "</li>"
       ∧ help_text_item force_text (Text (Plain s))
         = py "<li>" ++ escape s ++ py "</li>"
       ∧ help_text_item force_text (Text (Safe s)) = py "<li>" ++ s ++ py "</li>")
  ∧ (∀ before v after texts e,
       validators = before ++ v :: after →
       Forall2 (fun v t => get_help_text v = Ok t) before texts →
       get_help_text v = Raise e →
       password_validators_help_texts validators = Raise e
       ∧ password_validators_help_text_html force_text validators = Raise e).
Proof.
  split; [done|]. split; [|split; [done|]].
  - intros texts Hall.
    assert (password_validators_help_texts validators = Ok texts) as Htexts
      by apply (password_validators_help_texts_loop_Ok _ _ [] Hall).
    split; [done|]. split.
    + intros ->. unfold password_validators_help_text_html. by rewrite Htexts.
    + intros Hne.
      by rewrite (password_validators_help_text_html_Ok _ _ _ Hall Hne).
  - intros before v after texts e -> Hall He.
    assert (password_validators_help_texts (before ++ v :: after) = Raise e)
      as Htexts
      by apply (password_validators_help_texts_loop_Raise _ _ _ _ _ [] Hall He).
    split; [done|].
    unfold password_validators_help_text_html. by rewrite Htexts.
Qed.

Lemma password_validators_help_text_html_witness :
  markup_text <$>
    password_validators_help_text_html (fun _ => py "<b>Tom & Jerry</b>")
      [sample_C; sample_safe_help]
  = Ok (py "<ul><li>&lt;b&gt;Tom &amp; Jerry&lt;/b&gt;</li><li><b>Be careful</b></li></ul>")
  ∧ password_validators_help_text_html (fun _ => py "help")
      [sample_C; sample_no_help]
    = Raise TypeError.
Proof.
  split.
  - destruct (password_validators_help_text_html_spec
                (fun _ => py "<b>Tom & Jerry</b>") [sample_C; sample_safe_help])
      as (_ & Hreturned & _ & _).
    destruct (Hreturned
                [LazyText (ugettext_lazy
                             "Your password must contain at least one digit.");
                 Text (Safe (py "<b>Be careful</b>"))]) as (_ & _ & Hlist).
    + repeat (apply List.Forall2_cons); try apply List.Forall2_nil; reflexivity.
    + apply Hlist. discriminate.
  - destruct (password_validators_help_text_html_spec
                (fun _ => py "help") [sample_C; sample_no_help])
      as (_ & _ & _ & Hraised).
    apply (Hraised [sample_C] sample_no_help []
             [LazyText (ugettext_lazy
                          "Your password must contain at least one digit.")]
             TypeError); try reflexivity.
    repeat (apply List.Forall2_cons); try apply List.Forall2_nil; reflexivity.
Defined.

(** ** UserAttributeSimilarityValidator: the loops *)

Lemma UserAttributeSimilarityValidator_parts_spec
    max_similarity password user name parts :
  UserAttributeSimilarityValidator_parts max_similarity password user name parts
  = if existsb (too_similar max_similarity password) parts
    then too_similar_error user name
    else Ok tt.
Proof.
  induction parts as [|part parts IH]; [done|].
  simpl. fold (too_similar max_similarity password part).
  destruct (too_similar max_similarity password part); [done|]. apply IH.
Qed.

(** An attribute that is missing, not a string, or empty is skipped. *)
Lemma UserAttributeSimilarityValidator_attributes_cons
    max_similarity password user name names :
  UserAttributeSimilarityValidator_attributes max_similarity password user
    (VStr name :: names)
  = if attribute_hits max_similarity password user name
    then too_similar_error user name
    else UserAttributeSimilarityValidator_attributes max_similarity password
           user names.
Proof.
  unfold attribute_hits. simpl.
  destruct (user_attrs user !! name) as [[| | |[|c s]|[|]]|]; simpl; try done.
  - by destruct (_ =? 0).
  - by destruct (Qeq_bool _ _).
  - rewrite UserAttributeSimilarityValidator_parts_spec.
    destruct (existsb _ _); [|done].
    unfold too_similar_error. by destruct (user_verbose_name user name).
Qed.

Lemma UserAttributeSimilarityValidator_attributes_spec
    max_similarity password user (names : list text) :
  (∀ name, In name names → ∃ verbose_name,
             user_verbose_name user name = Ok verbose_name) →
  (existsb (attribute_hits max_similarity password user) names = true →
     error_code (UserAttributeSimilarityValidator_attributes max_similarity
                   password user (map VStr names))
     = Some "password_too_similar")
  ∧ (existsb (attribute_hits max_similarity password user) names = false →
     UserAttributeSimilarityValidator_attributes max_similarity password user
       (map VStr names) = Ok tt).
Proof.
  intros Hverbose. induction names as [|name names IH]; [done|].
  change (map VStr (name :: names)) with (VStr name :: map VStr names).
  rewrite UserAttributeSimilarityValidator_attributes_cons.
  simpl existsb.
  destruct (attribute_hits max_similarity password user name); simpl.
  - split; [|done]. intros _.
    destruct (Hverbose name) as [verbose_name Hname]; [by left|].
    unfold too_similar_error. by rewrite Hname.
  - apply IH. intros n Hn. apply Hverbose. by right.
Qed.

(** An attribute hits exactly when one of the strings compared for it passes
    the test. *)
Lemma existsb_attribute_hits max_similarity password user names :
  existsb (attribute_hits max_similarity password user) names = true
  ↔ ∃ part, compared_part user names part
            ∧ too_similar max_similarity password part = true.
Proof.
  rewrite existsb_exists. unfold attribute_hits, compared_part. split.
  - intros (name & Hin & Hhit).
    destruct (user_attrs user !! name) as [[| | |[|c s]|]|] eqn:Hattr; try done.
    apply existsb_exists in Hhit as (part & Hpart & Htest).
    exists part. split; [|done]. by exists name, (c :: s).
  - intros (part & (name & s & Hin & Hattr & Hne & Hpart) & Htest).
    exists name. split; [done|]. rewrite Hattr.
    destruct s; [done|]. apply existsb_exists. by exists part.
Qed.

(** ** UserAttributeSimilarityValidator: the quick ratio *)

Lemma occurrences_cons (x c : ascii) (l : text) :
  occurrences (x :: l) c = (if decide (c = x) then 1 else 0) + occurrences l c.
Proof.
  simpl. destruct (ascii_dec x c) as [->|Hne]; case_decide; try done; lia.
Qed.

Lemma fullbcount_foldl (b : text) (counts : gmap ascii Z) (c : ascii) :
  default 0
    (foldl (fun counts elt => <[elt := default 0 (counts !! elt) + 1]> counts)
       counts b !! c)
  = default 0 (counts !! c) + occurrences b c.
Proof.
  revert counts. induction b as [|x b IH]; intros counts.
  - simpl. lia.
  - cbn [foldl]. rewrite IH, occurrences_cons. case_decide as Hc.
    + subst. rewrite lookup_insert_eq. simpl. lia.
    + rewrite lookup_insert_ne by done. lia.
Qed.

Lemma available_fullbcount (b : text) (c : ascii) :
  available (fullbcount b) ∅ c = occurrences b c.
Proof.
  unfold available, fullbcount. rewrite lookup_empty, fullbcount_foldl.
  rewrite lookup_empty. simpl. lia.
Qed.

Lemma available_insert full avail elt n c :
  available full (<[elt := n]> avail) c
  = if decide (c = elt) then n else available full avail c.
Proof.
  unfold available. case_decide as Hc.
  - subst. by rewrite lookup_insert_eq.
  - by rewrite lookup_insert_ne.
Qed.

Lemma quick_matches_cons full elt a avail matches :
  quick_matches full (elt :: a) avail matches
  = quick_matches full a (<[elt := available full avail elt - 1]> avail)
      (if 0 <? available full avail elt then matches + 1 else matches).
Proof. reflexivity. Qed.

Lemma quick_matches_acc full a avail matches :
  quick_matches full a avail matches = matches + quick_matches full a avail 0.
Proof.
  revert avail matches. induction a as [|elt a IH]; intros avail matches.
  - simpl. lia.
  - rewrite !quick_matches_cons.
    destruct (0 <? _).
    + rewrite (IH _ (matches + 1)), (IH _ (0 + 1)). lia.
    + rewrite (IH _ matches). lia.
Qed.

Lemma quick_matches_le_a full a avail :
  0 ≤ quick_matches full a avail 0 ≤ Z.of_nat (length a).
Proof.
  revert avail. induction a as [|elt a IH]; intros avail.
  - simpl. lia.
  - rewrite quick_matches_cons, quick_matches_acc.
    specialize (IH (<[elt := available full avail elt - 1]> avail)).
    cbn [length]. destruct (0 <? _); lia.
Qed.

(** Taking one occurrence of [x] out of a list that has one. *)
Lemma take_out (x : ascii) (b : text) :
  0 < occurrences b x →
  ∃ b', length b = S (length b')
        ∧ ∀ c, occurrences b c = (if decide (c = x) then 1 else 0) + occurrences b' c.
Proof.
  intros Hx.
  assert (In x b) as Hin by (apply (count_occ_In ascii_dec); lia).
  apply in_split in Hin as (l1 & l2 & ->).
  exists (l1 ++ l2). split.
  - rewrite !length_app. simpl. lia.
  - intros c. rewrite !count_occ_app, !Nat2Z.inj_add, occurrences_cons. lia.
Qed.

Lemma quick_matches_le_b full a avail (b : text) :
  (∀ c, available full avail c ≤ occurrences b c) →
  quick_matches full a avail 0 ≤ Z.of_nat (length b).
Proof.
  revert avail b. induction a as [|elt a IH]; intros avail b Hb.
  - simpl. lia.
  - rewrite quick_matches_cons, quick_matches_acc.
    destruct (0 <? available full avail elt) eqn:Hnumb.
    + apply Z.ltb_lt in Hnumb.
      destruct (take_out elt b) as (b' & Hlen & Hocc);
        [specialize (Hb elt); lia|].
      specialize (IH (<[elt := available full avail elt - 1]> avail) b').
      rewrite Hlen. enough (quick_matches full a
        (<[elt := available full avail elt - 1]> avail) 0 ≤ Z.of_nat (length b')) by lia.
      apply IH. intros c. rewrite available_insert.
      specialize (Hb c). specialize (Hocc c). case_decide; subst; lia.
    + apply Z.ltb_ge in Hnumb.
      enough (quick_matches full a
        (<[elt := available full avail elt - 1]> avail) 0 ≤ Z.of_nat (length b)) by lia.
      apply IH. intros c. rewrite available_insert.
      specialize (Hb c). case_decide; subst; lia.
Qed.

(** Every element of [a] finds a partner exactly when [a] asks for no more
    of any element than is available. *)
Lemma quick_matches_all full a avail :
  quick_matches full a avail 0 = Z.of_nat (length a)
  ↔ ∀ c, In c a → occurrences a c ≤ available full avail c.
Proof.
  revert avail. induction a as [|elt a IH]; intros avail.
  - simpl. split; [intros _ c [] | done].
  - rewrite quick_matches_cons, quick_matches_acc.
    pose proof (quick_matches_le_a full a
                  (<[elt := available full avail elt - 1]> avail)) as Hle.
    specialize (IH (<[elt := available full avail elt - 1]> avail)).
    cbn [length]. split.
    + intros Hall.
      destruct (0 <? available full avail elt) eqn:Hnumb; [|lia].
      apply Z.ltb_lt in Hnumb.
      assert (quick_matches full a
                (<[elt := available full avail elt - 1]> avail) 0
              = Z.of_nat (length a)) as Hrest by lia.
      pose proof (proj1 IH Hrest) as Hrest'.
      intros c Hc. rewrite occurrences_cons.
      destruct (in_dec ascii_dec c a) as [Hin | Hnotin].
      * specialize (Hrest' c Hin). rewrite available_insert in Hrest'.
        case_decide; subst; lia.
      * apply (count_occ_not_In ascii_dec) in Hnotin. rewrite Hnotin.
        destruct Hc as [-> | Hc].
        -- case_decide; [lia | done].
        -- apply (count_occ_In ascii_dec) in Hc. lia.
    + intros Hall.
      assert (0 < available full avail elt) as Hnumb.
      { specialize (Hall elt (or_introl eq_refl)).
        rewrite occurrences_cons in Hall. case_decide; [lia | done]. }
      apply Z.ltb_lt in Hnumb as Hnumb'. rewrite Hnumb'.
      enough (quick_matches full a
                (<[elt := available full avail elt - 1]> avail) 0
              = Z.of_nat (length a)) by lia.
      apply (proj2 IH). intros c Hc. rewrite available_insert.
      specialize (Hall c (or_intror Hc)). rewrite occurrences_cons in Hall.
      case_decide; subst; lia.
Qed.

(** As many occurrences of each element, at most, and the same length: the
    same elements. *)
Lemma occurrences_le_Permutation (a b : text) :
  (∀ c, occurrences a c ≤ occurrences b c) →
  length a = length b →
  Permutation a b.
Proof.
  revert b. induction a as [|x a IH]; intros b Hocc Hlen.
  - destruct b; [done | discriminate Hlen].
  - assert (In x b) as Hin.
    { apply (count_occ_In ascii_dec). specialize (Hocc x).
      rewrite occurrences_cons in Hocc. case_decide; [lia | done]. }
    apply in_split in Hin as (l1 & l2 & ->).
    rewrite <- Permutation_middle. constructor. apply IH.
    + intros c. specialize (Hocc c).
      rewrite occurrences_cons, !count_occ_app, !Nat2Z.inj_add, occurrences_cons in Hocc.
      rewrite count_occ_app, Nat2Z.inj_add. lia.
    + rewrite !length_app in *. simpl in Hlen. lia.
Qed.

Lemma quick_matches_bounds (a b : text) :
  0 ≤ quick_matches (fullbcount b) a ∅ 0 ≤ Z.of_nat (length a)
  ∧ quick_matches (fullbcount b) a ∅ 0 ≤ Z.of_nat (length b).
Proof.
  split; [apply quick_matches_le_a|].
  apply quick_matches_le_b. intros c. rewrite available_fullbcount. lia.
Qed.

(** The quick ratio never exceeds one ... *)
Lemma quick_ratio_le_1 (a b : text) : Qle_bool (quick_ratio a b) 1 = true.
Proof.
  apply Qle_bool_iff. unfold quick_ratio, calculate_ratio.
  destruct (quick_matches_bounds a b) as [[_ Ha] Hb].
  destruct (_ =? 0) eqn:Hlen; [apply Qle_refl|].
  apply Z.eqb_neq in Hlen. unfold Qle. simpl.
  rewrite Z2Pos.id by lia. lia.
Qed.

(** ... and is one exactly for two sequences with the same elements, in any
    order. *)
Lemma quick_ratio_eq_1 (a b : text) :
  Qeq_bool (quick_ratio a b) 1 = true ↔ Permutation a b.
Proof.
  rewrite Qeq_bool_iff. unfold quick_ratio, calculate_ratio.
  destruct (quick_matches_bounds a b) as [[H0 Ha] Hb].
  split.
  - intros Hone.
    assert (length a = length b
            ∧ quick_matches (fullbcount b) a ∅ 0 = Z.of_nat (length a))
      as [Hlen Hall].
    { destruct (_ =? 0) eqn:Hzero.
      - apply Z.eqb_eq in Hzero. lia.
      - apply Z.eqb_neq in Hzero. unfold Qeq in Hone. simpl in Hone.
        rewrite Z2Pos.id in Hone by lia. lia. }
    apply occurrences_le_Permutation; [|done].
    intros c. destruct (in_dec ascii_dec c a) as [Hin | Hnotin].
    + pose proof (proj1 (quick_matches_all _ _ _) Hall c Hin) as Hc.
      by rewrite available_fullbcount in Hc.
    + apply (count_occ_not_In ascii_dec) in Hnotin. rewrite Hnotin. lia.
  - intros Hperm.
    assert (quick_matches (fullbcount b) a ∅ 0 = Z.of_nat (length a)) as Hall.
    { apply quick_matches_all. intros c _. rewrite available_fullbcount.
      rewrite (proj1 (Permutation_count_occ ascii_dec a b) Hperm c). lia. }
    apply Permutation_length in Hperm.
    destruct (_ =? 0) eqn:Hzero; [reflexivity|].
    apply Z.eqb_neq in Hzero. unfold Qeq. simpl.
    rewrite Z2Pos.id by lia. lia.
Qed.

(** With [max_similarity = 0] the test succeeds on every string; with
    [max_similarity = 1] it succeeds on the strings that have the characters
    of the password, case apart. *)
Lemma too_similar_0 (password part : text) :
  too_similar (VInt 0) password part = true.
Proof. unfold too_similar. simpl. apply orb_true_r. Qed.

Lemma too_similar_1 (password part : text) :
  too_similar (VInt 1) password part = true
  ↔ Permutation (str_lower password) (str_lower part).
Proof.
  unfold too_similar. cbn [float_gt eq_int].
  change (inject_Z 1) with 1%Q. rewrite quick_ratio_le_1. simpl.
  rewrite orb_false_r. apply quick_ratio_eq_1.
Qed.

(** ** UserAttributeSimilarityValidator: the validator *)

Section Similarity.

Variables (password : text) (user : User) (names : list text).

Hypothesis verbose_names :
  ∀ name, In name names →
          ∃ verbose_name, user_verbose_name user name = Ok verbose_name.

Lemma UserAttributeSimilarityValidator_validate_hits (max_similarity : value) :
  let outcome :=
    UserAttributeSimilarityValidator_validate (VTuple (map VStr names))
      max_similarity password (Some user) in
  (error_code outcome = Some "password_too_similar"
   ↔ existsb (attribute_hits max_similarity password user) names = true)
  ∧ (outcome = Ok tt
     ↔ existsb (attribute_hits max_similarity password user) names = false).
Proof.
  simpl.
  change (iterate (VTuple (map VStr names)) ≫= _)
    with (UserAttributeSimilarityValidator_attributes max_similarity password
            user (map VStr names)).
  destruct (UserAttributeSimilarityValidator_attributes_spec max_similarity
              password user names verbose_names) as [Hhit Hmiss].
  destruct (existsb _ names).
  - specialize (Hhit eq_refl). split; split; try done.
    intros Hpass. rewrite Hpass in Hhit. discriminate Hhit.
  - specialize (Hmiss eq_refl). split; split; try done.
    intros Hfail. rewrite Hmiss in Hfail. discriminate Hfail.
Qed.

Lemma compared_part_0 :
  (∃ part, compared_part user names part ∧ too_similar (VInt 0) password part = true)
  ↔ ∃ name s, In name names ∧ user_attrs user !! name = Some (VStr s) ∧ s ≠ [].
Proof.
  unfold compared_part. split.
  - intros (part & (name & s & Hin & Hattr & Hne & _) & _). by exists name, s.
  - intros (name & s & Hin & Hattr & Hne).
    exists s. split; [|apply too_similar_0].
    exists name, s. repeat split; try done.
    apply in_or_app. right. by left.
Qed.

Lemma compared_part_1 :
  (∃ part, compared_part user names part ∧ too_similar (VInt 1) password part = true)
  ↔ ∃ part, compared_part user names part
            ∧ Permutation (str_lower password) (str_lower part).
Proof.
  split; intros (part & Hpart & H); exists part; (split; [done|]);
    by apply too_similar_1.
Qed.

(** C2, amended. For a user whose configured attributes have a verbose name:
    constructed with [max_similarity = 0], the validator fails with code
    [password_too_similar] exactly when one of the configured attributes of
    the user is a non-empty string, whatever the password, and passes
    otherwise; constructed with [max_similarity = 1], it fails exactly when
    the lowercased password has the same characters, in any order, as the
    lowercased value of such an attribute or as one of the pieces of that
    value between runs of non-word characters (an exact case-insensitive match
    being one such case), and passes otherwise. *)
Theorem UserAttributeSimilarityValidator_validate_spec :
  let validate_with max_similarity :=
    UserAttributeSimilarityValidator_validate (VTuple (map VStr names))
      max_similarity password (Some user) in
  (error_code (validate_with (VInt 0)) = Some "password_too_similar"
   ↔ ∃ name s, In name names ∧ user_attrs user !! name = Some (VStr s) ∧ s ≠ [])
  ∧ (validate_with (VInt 0) = Ok tt
     ↔ ¬ ∃ name s, In name names ∧ user_attrs user !! name = Some (VStr s) ∧ s ≠ [])
  ∧ (error_code (validate_with (VInt 1)) = Some "password_too_similar"
     ↔ ∃ part, compared_part user names part
               ∧ Permutation (str_lower password) (str_lower part))
  ∧ (validate_with (VInt 1) = Ok tt
     ↔ ¬ ∃ part, compared_part user names part
                 ∧ Permutation (str_lower password) (str_lower part)).
Proof.
  intros validate_with. subst validate_with. cbv beta.
  destruct (UserAttributeSimilarityValidator_validate_hits (VInt 0)) as [Hfail0 Hpass0].
  destruct (UserAttributeSimilarityValidator_validate_hits (VInt 1)) as [Hfail1 Hpass1].
  cbv zeta in Hfail0, Hpass0, Hfail1, Hpass1.
  rewrite Hfail0, Hpass0, Hfail1, Hpass1.
  rewrite <- compared_part_0, <- compared_part_1, <- !existsb_attribute_hits.
  repeat split; try done; try (intros H; by apply not_true_is_false);
    intros ->; done.
Qed.

End Similarity.

(** C2, as stated, fails twice.  With [max_similarity = 0] the validator
    passes for a user whose configured attribute is the empty string.  With
    [max_similarity = 1] it fails on a password that is no match of the
    attribute value nor of one of its pieces, but has their characters in
    another order. *)
Lemma UserAttributeSimilarityValidator_not_as_stated :
  (user_attrs (sample_user "") !! py "username" = Some (VStr (py ""))
   ∧ UserAttributeSimilarityValidator_validate (VTuple [VStr (py "username")])
       (VInt 0) (py "secret") (Some (sample_user "")) = Ok tt)
  ∧ (error_code
       (UserAttributeSimilarityValidator_validate (VTuple [VStr (py "username")])
          (VInt 1) (py "nhoj") (Some (sample_user "john")))
     = Some "password_too_similar"
     ∧ ∀ part, In part (re_split_nonword (py "john") ++ [py "john"]) →
               str_lower (py "nhoj") ≠ str_lower part).
Proof.
  split; [split; reflexivity|]. split; [reflexivity|].
  intros part [<- | [<- | []]]; discriminate.
Qed.

Lemma UserAttributeSimilarityValidator_validate_witness :
  error_code
    (UserAttributeSimilarityValidator_validate (VTuple [VStr (py "username")])
       (VInt 0) (py "secret") (Some (sample_user "john@example.com")))
  = Some "password_too_similar"
  ∧ error_code
      (UserAttributeSimilarityValidator_validate (VTuple [VStr (py "username")])
         (VInt 1) (py "Example") (Some (sample_user "john@example.com")))
    = Some "password_too_similar".
Proof.
  assert (∀ name, In name [py "username"] →
            ∃ verbose_name,
              user_verbose_name (sample_user "john@example.com") name
              = Ok verbose_name) as Hverbose.
  { intros name _. by exists name. }
  split.
  - apply (proj1 (UserAttributeSimilarityValidator_validate_spec (py "secret")
                    (sample_user "john@example.com") [py "username"] Hverbose)).
    exists (py "username"), (py "john@example.com").
    split; [simpl; tauto | split; [reflexivity | discriminate]].
  - apply (proj1 (proj2 (proj2 (UserAttributeSimilarityValidator_validate_spec
                    (py "Example") (sample_user "john@example.com")
                    [py "username"] Hverbose)))).
    exists (py "example"). split; [|apply Permutation_refl].
    exists (py "username"), (py "john@example.com").
    split; [simpl; tauto | split; [reflexivity | split; [discriminate|]]].
    simpl. tauto.
Defined.

(** ** UserAttributeSimilarityValidator: the default attributes *)

(** The validator constructed without options. *)
Lemma UserAttributeSimilarityValidator_default :
  UserAttributeSimilarityValidator ∅
  = Ok {| validate :=
            UserAttributeSimilarityValidator_validate DEFAULT_USER_ATTRIBUTES
              (VFloat (1 # 2));
          get_help_text := UserAttributeSimilarityValidator_get_help_text;
          attrs := {[ py "user_attributes" := DEFAULT_USER_ATTRIBUTES;
                      py "max_similarity" := VFloat (1 # 2) ]} |}.
Proof. reflexivity. Qed.

(** Attributes that are not strings are skipped, whatever the password. *)
Lemma UserAttributeSimilarityValidator_attributes_skipped
    max_similarity password user (names : list text) :
  (∀ name s, In name names → user_attrs user !! name ≠ Some (VStr s)) →
  UserAttributeSimilarityValidator_attributes max_similarity password user
    (map VStr names) = Ok tt.
Proof.
  intros Hnone. induction names as [|name names IH]; [done|].
  change (map VStr (name :: names)) with (VStr name :: map VStr names).
  rewrite UserAttributeSimilarityValidator_attributes_cons.
  unfold attribute_hits.
  destruct (user_attrs user !! name) as [[| | |s|]|] eqn:Hattr;
    try (apply IH; intros name' s' Hin; apply Hnone; by right).
  destruct (Hnone name s); [by left | done].
Qed.

(** C10. The default [user_attributes] is the string [username], not a
    tuple: the validator constructed without options iterates the
    one-character names [u], [s], [e], [r], [n], [a], [m], [e].  So for every
    user that has no string attribute under one of these names it passes
    every password, the user's username included. *)
Theorem UserAttributeSimilarityValidator_default_attributes
    (user : User) :
  (∀ c s, In c (py "username") → user_attrs user !! [c] ≠ Some (VStr s)) →
  ∃ v, UserAttributeSimilarityValidator ∅ = Ok v
       ∧ attrs v !! py "user_attributes" = Some (VStr (py "username"))
       ∧ iterate (VStr (py "username"))
         = Ok [VStr (py "u"); VStr (py "s"); VStr (py "e"); VStr (py "r");
               VStr (py "n"); VStr (py "a"); VStr (py "m"); VStr (py "e")]
       ∧ (∀ password, validate v password (Some user) = Ok tt)
       ∧ (∀ username,
            user_attrs user !! py "username" = Some (VStr username) →
            validate v username (Some user) = Ok tt).
Proof.
  intros Hnone.
  eexists. split; [apply UserAttributeSimilarityValidator_default|].
  split; [reflexivity|]. split; [reflexivity|].
  assert (∀ password,
            UserAttributeSimilarityValidator_validate DEFAULT_USER_ATTRIBUTES
              (VFloat (1 # 2)) password (Some user) = Ok tt) as Hpass.
  { intros password.
    change (UserAttributeSimilarityValidator_attributes (VFloat (1 # 2)) password
              user (map VStr (map (fun c => [c]) (py "username"))) = Ok tt).
    apply UserAttributeSimilarityValidator_attributes_skipped.
    intros name s Hin. apply in_map_iff in Hin as (c & <- & Hc).
    by apply Hnone. }
  split; [done|]. intros username _. apply Hpass.
Qed.

Lemma UserAttributeSimilarityValidator_default_attributes_witness :
  ∃ v, UserAttributeSimilarityValidator ∅ = Ok v
       ∧ validate v (py "john") (Some (sample_user "john")) = Ok tt.
Proof.
  destruct (UserAttributeSimilarityValidator_default_attributes (sample_user "john"))
    as (v & Hv & _ & _ & _ & Hname).
  - intros c s Hin. simpl in Hin.
    destruct Hin as [<-|[<-|[<-|[<-|[<-|[<-|[<-|[<-|[]]]]]]]]]; by vm_compute.
  - exists v. split; [done|]. by apply Hname.
Defined.

(** * Further properties *)

(** ** The character-class validators *)

Lemma at_least_one_passes test msgid code password user :
  at_least_one test msgid code password user = Ok tt
  ↔ ∃ c, In c password ∧ test c = true.
Proof.
  unfold at_least_one. rewrite <- existsb_exists.
  destruct (existsb test password); simpl; split; done.
Qed.

Lemma at_least_one_fails test msgid code password user :
  error_code (at_least_one test msgid code password user) = Some code
  ↔ ∀ c, In c password → test c = false.
Proof.
  unfold at_least_one.
  destruct (existsb test password) eqn:H; simpl.
  - apply existsb_exists in H as (c & Hin & Hc). split; [done|].
    intros Hall. rewrite (Hall c Hin) in Hc. discriminate.
  - split; [|done]. intros _ c Hin.
    destruct (test c) eqn:Hc; [|done].
    assert (existsb test password = true) as E
      by (apply existsb_exists; by exists c).
    congruence.
Qed.

(** No character is in two of the four classes. *)
Lemma char_classes_disjoint (c : ascii) :
  (char_isdigit c && char_ispunctuation_or_space c = false)
  ∧ (char_isdigit c && char_isupper c = false)
  ∧ (char_isdigit c && char_islower c = false)
  ∧ (char_ispunctuation_or_space c && char_isupper c = false)
  ∧ (char_ispunctuation_or_space c && char_islower c = false)
  ∧ (char_isupper c && char_islower c = false).
Proof.
  destruct c as [[] [] [] [] [] [] [] []]; repeat split; reflexivity.
Qed.

(** X1. A password that passes the four validators [AtLeastOneDigit],
    [AtLeastOnePunctuationCharacter], [AtLeastOneUppercaseCharacter] and
    [AtLeastOneLowercaseCharacter] has at least four characters: no character
    serves two of them. *)
Theorem character_classes_need_four_characters
    (password : text) (user : option User) :
  AtLeastOneDigitValidator_validate password user = Ok tt →
  AtLeastOnePunctuationCharacterValidator_validate password user = Ok tt →
  AtLeastOneUppercaseCharacterValidator_validate password user = Ok tt →
  AtLeastOneLowercaseCharacterValidator_validate password user = Ok tt →
  (4 ≤ length password)%nat.
Proof.
  intros Hd Hp Hu Hl.
  apply at_least_one_passes in Hd as (d & Hd & Hdc).
  apply at_least_one_passes in Hp as (p & Hp & Hpc).
  apply at_least_one_passes in Hu as (u & Hu & Huc).
  apply at_least_one_passes in Hl as (l & Hl & Hlc).
  change 4%nat with (length [d; p; u; l]).
  apply NoDup_incl_length.
  - pose proof (char_classes_disjoint d) as (D1 & D2 & D3 & _).
    pose proof (char_classes_disjoint p) as (_ & _ & _ & P1 & P2 & _).
    pose proof (char_classes_disjoint u) as (_ & _ & _ & _ & _ & U1).
    rewrite Hdc in D1, D2, D3. rewrite Hpc in P1, P2. rewrite Huc in U1.
    simpl in *.
    repeat constructor; simpl; intros H;
      repeat (destruct H as [H | H]; [subst; congruence|]); done.
  - intros c [<- | [<- | [<- | [<- | []]]]]; done.
Qed.

Lemma character_classes_need_four_characters_witness :
  (4 ≤ length (py "aB3!"))%nat.
Proof.
  by apply (character_classes_need_four_characters (py "aB3!") None).
Defined.

(** X2. An entirely numeric password, the one [NumericPasswordValidator]
    rejects, passes [AtLeastOneDigitValidator] and is rejected by the
    punctuation, uppercase and lowercase validators; so a password that
    passes one of these three also passes [NumericPasswordValidator]. *)
Theorem NumericPasswordValidator_and_character_classes
    (password : text) (user : option User) :
  error_code (NumericPasswordValidator_validate password user)
  = Some "password_entirely_numeric" →
  AtLeastOneDigitValidator_validate password user = Ok tt
  ∧ error_code (AtLeastOnePunctuationCharacterValidator_validate password user)
    = Some "password_without_punctuation"
  ∧ error_code (AtLeastOneUppercaseCharacterValidator_validate password user)
    = Some "password_without_uppercase"
  ∧ error_code (AtLeastOneLowercaseCharacterValidator_validate password user)
    = Some "password_without_lowercase".
Proof.
  unfold NumericPasswordValidator_validate, str_isdigit.
  destruct password as [|a password]; [done|].
  destruct (forallb char_isdigit (a :: password)) eqn:Hall; [|done]. intros _.
  rewrite forallb_forall in Hall.
  split; [|split; [|split]].
  - apply at_least_one_passes. exists a. split; [by left | apply Hall; by left].
  - apply at_least_one_fails. intros c Hc.
    pose proof (char_classes_disjoint c) as (D & _).
    by rewrite (Hall c Hc) in D.
  - apply at_least_one_fails. intros c Hc.
    pose proof (char_classes_disjoint c) as (_ & D & _).
    by rewrite (Hall c Hc) in D.
  - apply at_least_one_fails. intros c Hc.
    pose proof (char_classes_disjoint c) as (_ & _ & D & _).
    by rewrite (Hall c Hc) in D.
Qed.

Lemma NumericPasswordValidator_and_character_classes_witness :
  AtLeastOneDigitValidator_validate (py "20261103") None = Ok tt
  ∧ error_code
      (AtLeastOnePunctuationCharacterValidator_validate (py "20261103") None)
    = Some "password_without_punctuation"
  ∧ error_code
      (AtLeastOneUppercaseCharacterValidator_validate (py "20261103") None)
    = Some "password_without_uppercase"
  ∧ error_code
      (AtLeastOneLowercaseCharacterValidator_validate (py "20261103") None)
    = Some "password_without_lowercase".
Proof.
  by apply (NumericPasswordValidator_and_character_classes (py "20261103") None).
Defined.

(** ** NoRepeatsValidator: bounds *)

Lemma has_run_shorter (c : ascii) (k k' : nat) (password : text) :
  (k ≤ k')%nat → has_run c k' password → has_run c k password.
Proof.
  intros Hle (before & after & ->).
  exists before, (repeat c (k' - k) ++ after).
  replace k' with (k + (k' - k))%nat at 1 by lia.
  rewrite repeat_app. by rewrite <- app_assoc.
Qed.

Lemma NoRepeatsValidator_passes (max_repeats : Z) (password : text) user :
  in_index_range (max_repeats + 1) →
  NoRepeatsValidator_validate (VInt max_repeats) password user = Ok tt
  ↔ ¬ ∃ c, In c password ∧ has_run c (Z.to_nat (max_repeats + 1)) password.
Proof.
  intros Hrange. unfold NoRepeatsValidator_validate.
  rewrite NoRepeatsValidator_chars_existsb by done.
  rewrite <- existsb_run_spec.
  destruct (existsb _ _); simpl; split; done.
Qed.

(** X3. Allowing longer runs never turns an accepted password into a
    rejected one: a password that [NoRepeatsValidator] passes with
    [max_repeats = n] passes with every [max_repeats] from [n] up to the
    length of the password, the counts fitting an index. *)
Theorem NoRepeatsValidator_monotone
    (n m : Z) (password : text) (user : option User) :
  in_index_range (n + 1) → in_index_range (m + 1) →
  n ≤ m → m ≤ Z.of_nat (length password) →
  NoRepeatsValidator_validate (VInt n) password user = Ok tt →
  NoRepeatsValidator_validate (VInt m) password user = Ok tt.
Proof.
  intros Hn Hm Hle _.
  rewrite (NoRepeatsValidator_passes n password user Hn),
    (NoRepeatsValidator_passes m password user Hm).
  intros Hpass (c & Hin & Hrun). apply Hpass. exists c. split; [done|].
  apply (has_run_shorter c (Z.to_nat (n + 1)) (Z.to_nat (m + 1))); [lia | done].
Qed.

Lemma NoRepeatsValidator_monotone_witness :
  NoRepeatsValidator_validate (VInt 5) (py "aabaa") None = Ok tt.
Proof.
  apply (NoRepeatsValidator_monotone 2 5 (py "aabaa") None);
    try (unfold in_index_range, sys_maxsize; lia);
    [simpl; lia | reflexivity].
Defined.

(** X4. The bounds of [NoRepeatsValidator]: the empty password passes
    whatever [max_repeats] is, a number or not; with an integer [max_repeats]
    of zero or less, [max_repeats + 1] fitting an index, every non-empty
    password is rejected; with [max_repeats] the length of the password, the
    password passes; with a [max_repeats + 1] that does not fit an index,
    every non-empty password makes the validator raise [OverflowError]. *)
Theorem NoRepeatsValidator_bounds
    (password : text) (user : option User) :
  (∀ max_repeats : value,
     NoRepeatsValidator_validate max_repeats [] user = Ok tt)
  ∧ (∀ max_repeats : Z,
       in_index_range (max_repeats + 1) →
       max_repeats ≤ 0 → password ≠ [] →
       error_code (NoRepeatsValidator_validate (VInt max_repeats) password user)
       = Some "password_contains_repeats")
  ∧ (in_index_range (Z.of_nat (length password) + 1) →
     NoRepeatsValidator_validate (VInt (Z.of_nat (length password))) password
       user = Ok tt)
  ∧ (∀ max_repeats : Z,
       ¬ in_index_range (max_repeats + 1) → password ≠ [] →
       NoRepeatsValidator_validate (VInt max_repeats) password user
       = Raise OverflowError).
Proof.
  split; [done|]. split; [|split].
  - intros max_repeats Hrange Hle Hne.
    unfold NoRepeatsValidator_validate.
    rewrite NoRepeatsValidator_chars_existsb by done.
    assert (existsb
              (fun c => str_contains (repeat c (Z.to_nat (max_repeats + 1)))
                          password)
              (str_set password) = true) as ->; [|done].
    apply existsb_run_spec.
    destruct password as [|a password]; [done|].
    exists a. split; [by left|].
    apply (has_run_shorter a _ 1); [lia|]. by exists [], password.
  - intros Hrange. apply NoRepeatsValidator_passes; [done|].
    intros (c & _ & Hrun). apply has_run_length in Hrun. lia.
  - intros max_repeats. apply NoRepeatsValidator_overflow.
Qed.

Lemma NoRepeatsValidator_bounds_witness :
  error_code (NoRepeatsValidator_validate (VInt 0) (py "abc") None)
  = Some "password_contains_repeats"
  ∧ NoRepeatsValidator_validate (VInt 3) (py "aaa") None = Ok tt
  ∧ NoRepeatsValidator_validate (VInt (- 2 ^ 64)) (py "abc") None
    = Raise OverflowError.
Proof.
  destruct (NoRepeatsValidator_bounds (py "abc") None) as (_ & Hlow & _ & Hout).
  destruct (NoRepeatsValidator_bounds (py "aaa") None) as (_ & _ & Hhigh & _).
  split; [|split].
  - apply Hlow; [unfold in_index_range, sys_maxsize; lia | lia | discriminate].
  - apply Hhigh. unfold in_index_range, sys_maxsize. simpl. lia.
  - apply Hout; [unfold in_index_range, sys_maxsize; lia | discriminate].
Defined.

(** X5. A [max_repeats] that is not an integer ([None], a float, a string,
    a tuple) makes [NoRepeatsValidator.validate] raise [TypeError] on every
    non-empty password. *)
Theorem NoRepeatsValidator_TypeError
    (max_repeats : value) (password : text) (user : option User) :
  (∀ n, max_repeats ≠ VInt n) →
  password ≠ [] →
  NoRepeatsValidator_validate max_repeats password user = Raise TypeError.
Proof.
  intros Hint Hne. unfold NoRepeatsValidator_validate.
  destruct (str_set_nonempty password Hne) as (c & chars & ->).
  destruct max_repeats; try done. by destruct (Hint n).
Qed.

Lemma NoRepeatsValidator_TypeError_witness :
  NoRepeatsValidator_validate (VFloat 2) (py "abc") None = Raise TypeError.
Proof.
  apply NoRepeatsValidator_TypeError; [intros n H; discriminate H | discriminate].
Defined.

(** ** Stripping and lower-casing *)

Lemma str_lstrip_spaces (ws s : text) :
  forallb char_isspace ws = true → str_lstrip (ws ++ s) = str_lstrip s.
Proof.
  induction ws as [|c ws IH]; [done|]. simpl.
  intros H. apply andb_true_iff in H as [Hc Hws]. rewrite Hc. by apply IH.
Qed.

(** What [lstrip] removes is white space, and what it leaves does not start
    with white space. *)
Lemma str_lstrip_split (s : text) :
  ∃ ws, s = ws ++ str_lstrip s ∧ forallb char_isspace ws = true.
Proof.
  induction s as [|c s (ws & Hs & Hws)]; [by exists []|]. simpl.
  destruct (char_isspace c) eqn:Hc.
  - exists (c :: ws). simpl. rewrite Hc, Hws. split; [by rewrite <- Hs | done].
  - by exists [].
Qed.

Lemma str_lstrip_head (s : text) :
  match str_lstrip s with
  | [] => True
  | c :: _ => char_isspace c = false
  end.
Proof.
  induction s as [|c s IH]; [done|]. simpl.
  destruct (char_isspace c) eqn:Hc; [done|]. simpl. done.
Qed.

Lemma str_lstrip_fixed (s : text) :
  match s with [] => True | c :: _ => char_isspace c = false end →
  str_lstrip s = s.
Proof. destruct s as [|c s]; [done|]. simpl. by intros ->. Qed.

Lemma str_lstrip_idempotent (s : text) : str_lstrip (str_lstrip s) = str_lstrip s.
Proof. apply str_lstrip_fixed, str_lstrip_head. Qed.

Lemma str_rstrip_split (s : text) :
  ∃ ws, s = str_rstrip s ++ ws ∧ forallb char_isspace ws = true.
Proof.
  unfold str_rstrip. destruct (str_lstrip_split (rev s)) as (ws & Hs & Hws).
  exists (rev ws). split.
  - rewrite <- rev_app_distr, <- Hs. by rewrite rev_involutive.
  - rewrite forallb_forall in *. intros c Hc. apply Hws. by apply in_rev.
Qed.

Lemma str_rstrip_spaces (s ws : text) :
  forallb char_isspace ws = true → str_rstrip (s ++ ws) = str_rstrip s.
Proof.
  intros Hws. unfold str_rstrip. rewrite rev_app_distr.
  rewrite str_lstrip_spaces; [done|].
  rewrite forallb_forall in *. intros c Hc. apply Hws. by apply in_rev in Hc.
Qed.

Lemma str_rstrip_idempotent (s : text) : str_rstrip (str_rstrip s) = str_rstrip s.
Proof.
  unfold str_rstrip. by rewrite rev_involutive, str_lstrip_idempotent.
Qed.

(** [rstrip] keeps a string free of leading white space. *)
Lemma str_lstrip_rstrip (s : text) :
  str_lstrip s = s → str_lstrip (str_rstrip s) = str_rstrip s.
Proof.
  intros Hs. apply str_lstrip_fixed.
  destruct (str_rstrip_split s) as (ws & Hsplit & _).
  destruct (str_rstrip s) as [|c r]; [done|].
  pose proof (str_lstrip_head s) as Hhead. rewrite Hs, Hsplit in Hhead. done.
Qed.

Lemma str_strip_idempotent (s : text) : str_strip (str_strip s) = str_strip s.
Proof.
  unfold str_strip.
  rewrite (str_lstrip_rstrip (str_lstrip s)) by apply str_lstrip_idempotent.
  apply str_rstrip_idempotent.
Qed.

(** White space around a string does not change what [strip] gives. *)
Lemma str_strip_spaces (ws1 s ws2 : text) :
  forallb char_isspace ws1 = true → forallb char_isspace ws2 = true →
  str_strip (ws1 ++ s ++ ws2) = str_strip s.
Proof.
  intros H1 H2. unfold str_strip. rewrite str_lstrip_spaces by done.
  destruct (str_lstrip_split s) as (ws & Hs & Hws).
  destruct (str_lstrip s) as [|c r] eqn:Hstrip.
  - rewrite app_nil_r in Hs. subst s.
    rewrite str_lstrip_spaces by done.
    destruct (str_lstrip_split ws2) as (ws' & H' & _).
    assert (str_lstrip ws2 = []) as ->; [|done].
    pose proof (str_lstrip_head ws2) as Hhead.
    destruct (str_lstrip ws2) as [|c r] eqn:E; [done|].
    assert (In c ws2) as Hin by (rewrite H'; apply in_or_app; right; by left).
    rewrite forallb_forall in H2. rewrite (H2 c Hin) in Hhead. discriminate.
  - rewrite Hs at 1. rewrite <- app_assoc, str_lstrip_spaces by done.
    assert (str_lstrip ((c :: r) ++ ws2) = (c :: r) ++ ws2) as ->.
    { apply str_lstrip_fixed. simpl.
      pose proof (str_lstrip_head s) as Hhead. by rewrite Hstrip in Hhead. }
    by apply str_rstrip_spaces.
Qed.

Lemma In_str_lstrip (c : ascii) (s : text) : In c (str_lstrip s) → In c s.
Proof.
  destruct (str_lstrip_split s) as (ws & Hs & _). intros H.
  rewrite Hs. apply in_or_app. by right.
Qed.

Lemma In_str_strip (c : ascii) (s : text) : In c (str_strip s) → In c s.
Proof.
  unfold str_strip, str_rstrip. intros H.
  apply in_rev, In_str_lstrip in H. apply in_rev in H. by apply In_str_lstrip.
Qed.

Lemma char_lower_idempotent (c : ascii) : char_lower (char_lower c) = char_lower c.
Proof. destruct c as [[] [] [] [] [] [] [] []]; reflexivity. Qed.

Lemma char_isspace_lower (c : ascii) : char_isspace (char_lower c) = char_isspace c.
Proof. destruct c as [[] [] [] [] [] [] [] []]; reflexivity. Qed.

(** What is left of a lower-cased string by [strip] has no upper-case
    letter. *)
Lemma str_strip_lower_lowercased (s : text) :
  is_lowercased (str_strip (str_lower s)).
Proof.
  unfold is_lowercased, str_lower.
  rewrite <- (map_id (str_strip (map char_lower s))) at 2.
  apply map_ext_in. intros c Hc.
  apply In_str_strip, in_map_iff in Hc as (x & <- & _).
  apply char_lower_idempotent.
Qed.

Lemma str_lower_spaces (ws : text) :
  forallb char_isspace ws = true → forallb char_isspace (str_lower ws) = true.
Proof.
  unfold str_lower. rewrite !forallb_forall. intros H c Hc.
  apply in_map_iff in Hc as (x & <- & Hx). rewrite char_isspace_lower. by apply H.
Qed.

(** ** CommonPasswordValidator: the list and the candidates *)

(** X6. When the constructor of [CommonPasswordValidator] returns, the lines
    come from the gzipped reading of the file, or, that reading having
    raised [IOError], from the plain reading; the set holds exactly the
    stripped lines, so none of its members starts or ends with white space
    (a line of white space gives the empty string).  An exception other than
    [IOError] raised by the gzipped reading propagates, without the plain
    reading being tried. *)
Theorem CommonPasswordValidator_init_spec (fs : FileSystem) (path : value) :
  (∀ passwords,
     CommonPasswordValidator_init fs path = Ok passwords →
     ∃ lines,
       (gzip_read_splitlines fs path = Ok lines
        ∨ (gzip_read_splitlines fs path = Raise IOError
           ∧ open_readlines fs path = Ok lines))
       ∧ (∀ p, p ∈ passwords ↔ ∃ line, In line lines ∧ p = str_strip line)
       ∧ (∀ p, p ∈ passwords → str_strip p = p))
  ∧ (∀ e, gzip_read_splitlines fs path = Raise e → e ≠ IOError →
          CommonPasswordValidator_init fs path = Raise e).
Proof.
  unfold CommonPasswordValidator_init. split.
  - intros passwords Hinit.
    assert (∃ lines,
              (gzip_read_splitlines fs path = Ok lines
               ∨ (gzip_read_splitlines fs path = Raise IOError
                  ∧ open_readlines fs path = Ok lines))
              ∧ passwords = list_to_set (map str_strip lines))
      as (lines & Hlines & ->).
    { destruct (gzip_read_splitlines fs path) as [lines|e] eqn:Hgzip.
      - injection Hinit as <-. exists lines. split; [by left | done].
      - destruct e; try done.
        destruct (open_readlines fs path) as [lines|e] eqn:Hopen; [|done].
        injection Hinit as <-. exists lines. split; [by right | done]. }
    exists lines. split; [done|].
    assert (∀ p, p ∈ (list_to_set (map str_strip lines) : gset text)
                 ↔ ∃ line, In line lines ∧ p = str_strip line) as Hmem.
    { intros p. rewrite elem_of_list_to_set, list_elem_of_In, in_map_iff.
      split; intros (line & H1 & H2); exists line; by split. }
    split; [done|].
    intros p Hp. apply Hmem in Hp as (line & _ & ->). apply str_strip_idempotent.
  - intros e He Hne. rewrite He. by destruct e.
Qed.

Lemma CommonPasswordValidator_init_spec_witness :
  ∃ lines,
    (gzip_read_splitlines sample_fs VNone = Ok lines
     ∨ (gzip_read_splitlines sample_fs VNone = Raise IOError
        ∧ open_readlines sample_fs VNone = Ok lines))
    ∧ (∀ p, p ∈ (list_to_set [py "password"; py "123456"] : gset text)
            ↔ ∃ line, In line lines ∧ p = str_strip line)
    ∧ (∀ p, p ∈ (list_to_set [py "password"; py "123456"] : gset text)
            → str_strip p = p).
Proof.
  apply (proj1 (CommonPasswordValidator_init_spec sample_fs VNone)).
  reflexivity.
Defined.

(** X7. An entry of the password list that contains an upper-case letter
    is never matched: the candidate is lower-cased before the lookup and the
    entries are not, so removing such an entry from the set changes the
    outcome for no password. *)
Theorem CommonPasswordValidator_uppercase_entry_unused
    (passwords : gset text) (entry password : text) (user : option User) :
  ¬ is_lowercased entry →
  CommonPasswordValidator_validate passwords password user
  = CommonPasswordValidator_validate (passwords ∖ {[ entry ]}) password user.
Proof.
  intros Hupper. unfold CommonPasswordValidator_validate.
  assert (str_strip (str_lower password) ≠ entry) as Hne.
  { intros <-. apply Hupper, str_strip_lower_lowercased. }
  assert (str_strip (str_lower password) ∈ passwords ∖ {[ entry ]}
          ↔ str_strip (str_lower password) ∈ passwords) as Hsame.
  { rewrite elem_of_difference, elem_of_singleton. tauto. }
  destruct (decide (str_strip (str_lower password) ∈ passwords));
    destruct (decide (str_strip (str_lower password) ∈ passwords ∖ {[ entry ]}));
    try done; tauto.
Qed.

Lemma CommonPasswordValidator_uppercase_entry_unused_witness :
  CommonPasswordValidator_validate {[ py "Password" ]} (py "Password") None
  = CommonPasswordValidator_validate ({[ py "Password" ]} ∖ {[ py "Password" ]})
      (py "Password") None.
Proof.
  apply CommonPasswordValidator_uppercase_entry_unused. discriminate.
Defined.

(** X8. The outcome of [CommonPasswordValidator.validate] is the same for
    two candidates that differ in the case of their letters only, and does
    not change when white space is put before or after the candidate. *)
Theorem CommonPasswordValidator_case_and_padding
    (passwords : gset text) (password password' before after : text)
    (user : option User) :
  str_lower password = str_lower password' →
  forallb char_isspace before = true →
  forallb char_isspace after = true →
  CommonPasswordValidator_validate passwords (before ++ password ++ after) user
  = CommonPasswordValidator_validate passwords password' user.
Proof.
  intros Hcase Hbefore Hafter. unfold CommonPasswordValidator_validate.
  assert (str_strip (str_lower (before ++ password ++ after))
          = str_strip (str_lower password')) as ->; [|done].
  unfold str_lower in *. rewrite !map_app, Hcase.
  apply str_strip_spaces; by apply str_lower_spaces.
Qed.

Lemma CommonPasswordValidator_case_and_padding_witness :
  CommonPasswordValidator_validate {[ py "password" ]}
    (py "  " ++ py "PassWord" ++ py " ") None
  = CommonPasswordValidator_validate {[ py "password" ]} (py "password") None.
Proof.
  by apply CommonPasswordValidator_case_and_padding.
Defined.

(** ** UserAttributeSimilarityValidator: the threshold *)

Lemma quick_ratio_ge_0 (a b : text) : (0 <= quick_ratio a b)%Q.
Proof.
  unfold quick_ratio, calculate_ratio.
  destruct (quick_matches_bounds a b) as [[H0 _] _].
  destruct (_ =? 0); [done|]. unfold Qle. simpl. lia.
Qed.

Lemma quick_ratio_le_1_Q (a b : text) : (quick_ratio a b <= 1)%Q.
Proof. apply Qle_bool_iff, quick_ratio_le_1. Qed.

Lemma float_gt_number (x : Q) (v : value) (q : Q) :
  as_number v = Some q → float_gt x v = negb (Qle_bool x q).
Proof. destruct v; simpl; intros [= <-]; done. Qed.

Lemma eq_int_0_number (v : value) (q : Q) :
  as_number v = Some q → eq_int v 0 = Qeq_bool q 0.
Proof.
  destruct v; simpl; intros [= <-]; [|done].
  destruct (n =? 0) eqn:Hn, (Qeq_bool (inject_Z n) (inject_Z 0)) eqn:Hq; try done.
  - apply Z.eqb_eq in Hn. subst. discriminate Hq.
  - apply Qeq_bool_iff in Hq. unfold Qeq in Hq. simpl in Hq.
    apply Z.eqb_neq in Hn. lia.
Qed.

(** The test with a number as threshold. *)
Lemma too_similar_number (v : value) (q : Q) (password part : text) :
  as_number v = Some q →
  too_similar v password part = true
  ↔ (q < quick_ratio (str_lower password) (str_lower part)
     ∨ quick_ratio (str_lower password) (str_lower part) == 1
     ∨ q == 0)%Q.
Proof.
  intros Hv. unfold too_similar.
  rewrite (float_gt_number _ _ _ Hv), (eq_int_0_number _ _ Hv).
  set (r := quick_ratio (str_lower password) (str_lower part)).
  destruct (Qle_bool r q) eqn:Hle.
  - apply Qle_bool_iff in Hle.
    destruct (Qeq_bool r 1) eqn:H1.
    + apply Qeq_bool_iff in H1. simpl. split; [by right; left | done].
    + apply Qeq_bool_neq in H1.
      destruct (Qeq_bool q 0) eqn:H0.
      * apply Qeq_bool_iff in H0. simpl. split; [by right; right | done].
      * apply Qeq_bool_neq in H0. simpl. split; [done|].
        intros [H | [H | H]]; [lra | done | done].
  - simpl. split; [intros _ | done]. left.
    apply Qnot_le_lt. intros H. apply Qle_bool_iff in H. congruence.
Qed.

Lemma too_similar_error_not_Ok (user : User) (name : text) :
  too_similar_error user name ≠ Ok tt.
Proof. unfold too_similar_error. by destruct (user_verbose_name user name). Qed.

Lemma UserAttributeSimilarityValidator_parts_passes
    max_similarity password user name parts :
  UserAttributeSimilarityValidator_parts max_similarity password user name parts
  = Ok tt
  ↔ existsb (too_similar max_similarity password) parts = false.
Proof.
  rewrite UserAttributeSimilarityValidator_parts_spec.
  destruct (existsb _ _); split; try done.
  intros H. by apply too_similar_error_not_Ok in H.
Qed.

Lemma existsb_pointwise {A} (f g : A → bool) (l : list A) :
  (∀ x, f x = g x) → existsb f l = existsb g l.
Proof. intros H. induction l as [|x l IH]; [done|]. simpl. by rewrite H, IH. Qed.

(** Two thresholds under which the test says the same give the same
    outcome. *)
Lemma UserAttributeSimilarityValidator_attributes_ext
    t t' password user (names : list value) :
  (∀ part, too_similar t password part = too_similar t' password part) →
  UserAttributeSimilarityValidator_attributes t password user names
  = UserAttributeSimilarityValidator_attributes t' password user names.
Proof.
  intros Hsame. induction names as [|name names IH]; [done|].
  simpl. destruct (getattr_user user name) as [v|e]; [|done]. simpl.
  destruct (negb (truthy v) || negb (is_string v)); [done|].
  destruct name; try done. destruct v; try done.
  rewrite !UserAttributeSimilarityValidator_parts_spec.
  rewrite (existsb_pointwise _ _ _ Hsame). by rewrite IH.
Qed.

Lemma UserAttributeSimilarityValidator_validate_ext
    user_attributes t t' password user :
  (∀ part, too_similar t password part = too_similar t' password part) →
  UserAttributeSimilarityValidator_validate user_attributes t password user
  = UserAttributeSimilarityValidator_validate user_attributes t' password user.
Proof.
  intros Hsame. unfold UserAttributeSimilarityValidator_validate.
  destruct user as [u|]; [|done].
  destruct (iterate user_attributes) as [names|e]; [|done]. simpl.
  by apply UserAttributeSimilarityValidator_attributes_ext.
Qed.

(** A threshold under which the test says yes less often accepts what the
    other accepts. *)
Lemma UserAttributeSimilarityValidator_attributes_transfer
    t t' password user (names : list value) :
  (∀ part, too_similar t' password part = true → too_similar t password part = true) →
  UserAttributeSimilarityValidator_attributes t password user names = Ok tt →
  UserAttributeSimilarityValidator_attributes t' password user names = Ok tt.
Proof.
  intros Hless. induction names as [|name names IH]; [done|].
  simpl. destruct (getattr_user user name) as [v|e]; [|done]. simpl.
  destruct (negb (truthy v) || negb (is_string v)); [done|].
  destruct name; try done. destruct v; try done.
  destruct (UserAttributeSimilarityValidator_parts t password user s
              (re_split_nonword s0 ++ [s0])) as [[]|e] eqn:Hparts; [|done].
  simpl. intros Hrest.
  apply UserAttributeSimilarityValidator_parts_passes in Hparts.
  assert (UserAttributeSimilarityValidator_parts t' password user s
            (re_split_nonword s0 ++ [s0]) = Ok tt) as ->.
  { apply UserAttributeSimilarityValidator_parts_passes.
    apply not_true_iff_false. intros H.
    apply existsb_exists in H as (part & Hin & Hpart).
    assert (existsb (too_similar t password) (re_split_nonword s0 ++ [s0]) = true)
      as E by (apply existsb_exists; exists part; split; [done | by apply Hless]).
    congruence. }
  simpl. by apply IH.
Qed.

(** X9. The similarity lies between 0 and 1, so the threshold saturates: a
    number of 1 or more as [max_similarity] gives what 1 gives, and a number
    of 0 or less gives what 0 gives, for every user and every password. *)
Theorem UserAttributeSimilarityValidator_threshold_saturates
    (user_attributes max_similarity : value) (q : Q) (password : text)
    (user : option User) :
  as_number max_similarity = Some q →
  ((1 <= q)%Q →
     UserAttributeSimilarityValidator_validate user_attributes max_similarity
       password user
     = UserAttributeSimilarityValidator_validate user_attributes (VInt 1)
         password user)
  ∧ ((q <= 0)%Q →
     UserAttributeSimilarityValidator_validate user_attributes max_similarity
       password user
     = UserAttributeSimilarityValidator_validate user_attributes (VInt 0)
         password user).
Proof.
  intros Hq.
  split; intros Hbound; apply UserAttributeSimilarityValidator_validate_ext;
    intros part; apply eq_true_iff_eq;
    rewrite (too_similar_number _ q _ _ Hq);
    pose proof (quick_ratio_ge_0 (str_lower password) (str_lower part));
    pose proof (quick_ratio_le_1_Q (str_lower password) (str_lower part)).
  - rewrite (too_similar_number (VInt 1) 1 _ _ eq_refl).
    split; (intros [H1 | [H1 | H1]]; [lra | by right; left | lra]).
  - rewrite (too_similar_number (VInt 0) 0 _ _ eq_refl).
    split; intros _; [by right; right|].
    destruct (Qlt_le_dec q 0); [left; lra | right; right; lra].
Qed.

Lemma UserAttributeSimilarityValidator_threshold_saturates_witness :
  UserAttributeSimilarityValidator_validate (VTuple [VStr (py "username")])
    (VFloat (3 # 2)) (py "john") (Some (sample_user "john.smith"))
  = UserAttributeSimilarityValidator_validate (VTuple [VStr (py "username")])
      (VInt 1) (py "john") (Some (sample_user "john.smith")).
Proof.
  apply (proj1 (UserAttributeSimilarityValidator_threshold_saturates
                  (VTuple [VStr (py "username")]) (VFloat (3 # 2)) (3 # 2)
                  (py "john") (Some (sample_user "john.smith")) eq_refl)).
  unfold Qle. simpl. lia.
Defined.

(** X10. Raising the threshold never turns an accepted password into a
    rejected one: what [UserAttributeSimilarityValidator] passes with a number
    as [max_similarity] it passes with every larger number. *)
Theorem UserAttributeSimilarityValidator_monotone
    (user_attributes t t' : value) (q q' : Q) (password : text)
    (user : option User) :
  as_number t = Some q → as_number t' = Some q' → (q <= q')%Q →
  UserAttributeSimilarityValidator_validate user_attributes t password user
  = Ok tt →
  UserAttributeSimilarityValidator_validate user_attributes t' password user
  = Ok tt.
Proof.
  intros Hq Hq' Hle. unfold UserAttributeSimilarityValidator_validate.
  destruct user as [u|]; [|done].
  destruct (iterate user_attributes) as [names|e]; [|done]. simpl.
  apply UserAttributeSimilarityValidator_attributes_transfer. intros part.
  rewrite (too_similar_number _ q _ _ Hq), (too_similar_number _ q' _ _ Hq').
  pose proof (quick_ratio_ge_0 (str_lower password) (str_lower part)).
  intros [H1 | [H1 | H1]]; [left; lra | by right; left |].
  destruct (Qlt_le_dec q 0); [left; lra | right; right; lra].
Qed.

Lemma UserAttributeSimilarityValidator_monotone_witness :
  UserAttributeSimilarityValidator_validate (VTuple [VStr (py "username")])
    (VFloat (3 # 4)) (py "jane") (Some (sample_user "john")) = Ok tt.
Proof.
  apply (UserAttributeSimilarityValidator_monotone
           (VTuple [VStr (py "username")]) (VFloat (1 # 2)) (VFloat (3 # 4))
           (1 # 2) (3 # 4) (py "jane") (Some (sample_user "john")));
    try reflexivity.
  unfold Qle. simpl. lia.
Defined.

(** ** UserAttributeSimilarityValidator: the strings compared *)

(** The first piece of [re.split]: the word characters before the first
    separator. *)
Lemma re_split_go_first (w : text) (c : ascii) (rest cur : text) :
  forallb char_isword w = true → char_isword c = false →
  re_split_go (w ++ c :: rest) cur false
  = (rev cur ++ w) :: re_split_go rest [] true.
Proof.
  revert cur. induction w as [|a w IH]; intros cur Hw Hc.
  - simpl. rewrite Hc. by rewrite app_nil_r.
  - simpl in Hw. apply andb_true_iff in Hw as [Ha Hw].
    simpl. rewrite Ha, IH by done. simpl. by rewrite <- app_assoc.
Qed.

(** X11. Whatever [max_similarity] is, a number or not, a password that is
    the value of a configured attribute, letter case apart, is rejected with
    code [password_too_similar]; so is a password that is, letter case apart,
    the first piece of that value: the word characters before its first
    separator, as the local part of an e-mail address. *)
Theorem UserAttributeSimilarityValidator_exact_match_rejected
    (max_similarity : value) (password : text) (user : User)
    (names : list text) (name s : text) :
  (∀ name, In name names →
     ∃ verbose_name, user_verbose_name user name = Ok verbose_name) →
  In name names →
  user_attrs user !! name = Some (VStr s) →
  s ≠ [] →
  (str_lower password = str_lower s
   ∨ ∃ w c rest, s = w ++ c :: rest
                 ∧ forallb char_isword w = true ∧ char_isword c = false
                 ∧ str_lower password = str_lower w) →
  error_code
    (UserAttributeSimilarityValidator_validate (VTuple (map VStr names))
       max_similarity password (Some user))
  = Some "password_too_similar".
Proof.
  intros Hverbose Hname Hattr Hne Hmatch.
  apply (UserAttributeSimilarityValidator_validate_hits password user names
           Hverbose max_similarity).
  apply existsb_attribute_hits.
  assert (∃ part, In part (re_split_nonword s ++ [s])
                  ∧ str_lower password = str_lower part) as (part & Hpart & Heq).
  { destruct Hmatch as [Hs | (w & c & rest & -> & Hw & Hc & Hs)].
    - exists s. split; [apply in_or_app; right; by left | done].
    - exists w. split; [|done]. apply in_or_app. left.
      unfold re_split_nonword. rewrite re_split_go_first by done. by left. }
  exists part. split; [by exists name, s|].
  unfold too_similar. rewrite Heq.
  rewrite (proj2 (quick_ratio_eq_1 _ _) (Permutation_refl _)).
  by rewrite orb_true_r.
Qed.

Lemma UserAttributeSimilarityValidator_exact_match_rejected_witness :
  error_code
    (UserAttributeSimilarityValidator_validate (VTuple [VStr (py "username")])
       (VInt 7) (py "John") (Some (sample_user "john@example.com")))
  = Some "password_too_similar".
Proof.
  apply (UserAttributeSimilarityValidator_exact_match_rejected (VInt 7)
           (py "John") (sample_user "john@example.com") [py "username"]
           (py "username") (py "john@example.com")).
  - intros name _. by exists name.
  - simpl. tauto.
  - reflexivity.
  - discriminate.
  - right. exists (py "john"), "@"%char, (py "example.com"). repeat split.
Defined.

(** X12. Attributes that do not exist are ignored, and so are those whose
    value is not a string or is the empty string: taking such a name out of
    the configured attributes changes the outcome for no password. *)
Theorem UserAttributeSimilarityValidator_ignores_attribute
    (max_similarity : value) (password : text) (user : User)
    (names names' : list text) (name : text) :
  (∀ c s, user_attrs user !! name ≠ Some (VStr (c :: s))) →
  UserAttributeSimilarityValidator_validate
    (VTuple (map VStr (names ++ name :: names'))) max_similarity password
    (Some user)
  = UserAttributeSimilarityValidator_validate
      (VTuple (map VStr (names ++ names'))) max_similarity password (Some user).
Proof.
  intros Hattr.
  change (UserAttributeSimilarityValidator_attributes max_similarity password
            user (map VStr (names ++ name :: names'))
          = UserAttributeSimilarityValidator_attributes max_similarity password
              user (map VStr (names ++ names'))).
  induction names as [|n names IH].
  - simpl app. change (map VStr (name :: names')) with (VStr name :: map VStr names').
    rewrite UserAttributeSimilarityValidator_attributes_cons.
    unfold attribute_hits.
    destruct (user_attrs user !! name) as [[| | |[|c s]|]|] eqn:E; try done.
    by destruct (Hattr c s).
  - simpl app.
    change (map VStr (n :: ?l)) with (VStr n :: map VStr l).
    rewrite !UserAttributeSimilarityValidator_attributes_cons. by rewrite IH.
Qed.

Lemma UserAttributeSimilarityValidator_ignores_attribute_witness :
  UserAttributeSimilarityValidator_validate
    (VTuple (map VStr ([py "username"] ++ py "email" :: []))) (VFloat (1 # 2))
    (py "johnny") (Some (sample_user "john"))
  = UserAttributeSimilarityValidator_validate
      (VTuple (map VStr ([py "username"] ++ []))) (VFloat (1 # 2))
      (py "johnny") (Some (sample_user "john")).
Proof.
  apply UserAttributeSimilarityValidator_ignores_attribute.
  intros c s. by vm_compute.
Defined.

(** ** The orchestrator: exceptions and outcomes *)

Section OrchestratorOutcomes.

Variable default_validators : Result (list Validator).
Variables (password : text) (user : option User).

Lemma validate_password_loop_app before rest errors calls :
  (∀ v, In v before → passes_or_fails v password user) →
  validate_password_loop password user (before ++ rest) errors calls
  = validate_password_loop password user rest
      (errors ++ raised_errors password user before)
      (calls ++ calls_of password user before).
Proof.
  revert errors calls. induction before as [|v before IH]; intros errors calls Hall.
  - simpl. by rewrite !app_nil_r.
  - simpl app. rewrite validate_password_loop_step by (apply Hall; by left).
    rewrite IH by (intros v' Hv'; apply Hall; by right).
    simpl. by rewrite <- !app_assoc.
Qed.

(** The two ways the loop ends: every validator met the interface and was
    called, or the first one that did not ended the loop. *)
Lemma validate_password_loop_cases validators errors calls :
  ((∀ v, In v validators → passes_or_fails v password user)
   ∧ validate_password_loop password user validators errors calls
     = (Ok (errors ++ raised_errors password user validators),
        calls ++ calls_of password user validators))
  ∨ (∃ before v after e,
       validators = before ++ v :: after
       ∧ (∀ v', In v' before → passes_or_fails v' password user)
       ∧ validate v password user = Raise e
       ∧ (∀ error, e ≠ ExnValidationError error)
       ∧ validate_password_loop password user validators errors calls
         = (Raise e, calls ++ calls_of password user (before ++ [v]))).
Proof.
  revert errors calls.
  induction validators as [|v validators IH]; intros errors calls.
  - left. split; [intros v [] |]. simpl. by rewrite !app_nil_r.
  - assert (passes_or_fails v password user
            ∨ ∃ e, validate v password user = Raise e
                   ∧ ∀ error, e ≠ ExnValidationError error) as [Hv | (e & Hv & He)].
    { unfold passes_or_fails.
      destruct (validate v password user) as [[]|e]; [by left; left|].
      destruct e; try (right; by eexists); left; right; by eexists. }
    + rewrite validate_password_loop_step by done.
      destruct (IH (errors ++ raised_error (validate v password user))
                  (calls ++ calls_of password user [v]))
        as [[Hall Hloop] | (before & v' & after & e & -> & Hb & Hv' & He & Hloop)].
      * left. split; [intros v' [<- | Hin]; [done | by apply Hall]|].
        rewrite Hloop. simpl. by rewrite <- !app_assoc.
      * right. exists (v :: before), v', after, e.
        split; [done|]. split; [intros x [<- | Hin]; [done | by apply Hb]|].
        split; [done|]. split; [done|].
        rewrite Hloop. simpl. by rewrite <- !app_assoc.
    + right. exists [], v, validators, e.
      split; [done|]. split; [intros x []|]. split; [done|]. split; [done|].
      by apply validate_password_loop_propagates.
Qed.

(** X13. Only [ValidationError] is caught.  When a validator raises
    anything else, the validators before it having passed or failed with a
    [ValidationError], [validate_password] ends with that exception: the
    errors accumulated so far are dropped and the validators after it are
    not called. *)
Theorem validate_password_propagates before validator after e calls :
  (∀ v, In v before → passes_or_fails v password user) →
  validate validator password user = Raise e →
  (∀ error, e ≠ ExnValidationError error) →
  validate_password default_validators password user
    (Some (before ++ validator :: after)) calls
  = (Raise e, calls ++ calls_of password user (before ++ [validator])).
Proof.
  intros Hbefore Hraise Hother.
  unfold validate_password. unfold mbind at 1, Traced_bind at 1. simpl.
  unfold mbind, Traced_bind.
  rewrite validate_password_loop_app by done.
  rewrite (validate_password_loop_propagates _ _ _ _ _ _ _ Hraise Hother).
  unfold calls_of. by rewrite map_app, <- app_assoc.
Qed.

Lemma validate_password_Ok_iff validators calls :
  (validate_password default_validators password user (Some validators) calls).1
  = Ok tt
  ↔ ∀ v, In v validators → validate v password user = Ok tt.
Proof.
  unfold validate_password. unfold mbind at 1, Traced_bind at 1. simpl.
  unfold mbind, Traced_bind.
  destruct (validate_password_loop_cases validators [] calls)
    as [[Hall Hloop] | (before & v & after & e & -> & Hb & Hv & He & Hloop)];
    rewrite Hloop; simpl.
  - split.
    + intros Hnone v Hin.
      destruct (raised_errors password user validators) eqn:Herrors; [|done].
      destruct (Hall v Hin) as [Hok | [error Hfail]]; [done|].
      assert (In error (raised_errors password user validators)) as Herr.
      { unfold raised_errors. apply in_flat_map. exists v. split; [done|].
        rewrite Hfail. by left. }
      rewrite Herrors in Herr. destruct Herr.
    + intros Hpass.
      assert (raised_errors password user validators = []) as ->; [|done].
      clear Hall Hloop. induction validators as [|v validators IH]; [done|].
      unfold raised_errors. simpl. rewrite (Hpass v) by (by left). simpl.
      apply IH. intros v' Hv'. apply Hpass. by right.
  - split; [done|]. intros Hpass.
    rewrite (Hpass v) in Hv; [done|]. apply in_or_app. right. by left.
Qed.

(** X14. [validate_password] returns [None] exactly when every validator
    returns; this holds for all validators, whatever they raise. *)
Theorem validate_password_returns_iff validators calls :
  (validate_password default_validators password user (Some validators) calls).1
  = Ok tt
  ↔ ∀ v, In v validators → validate v password user = Ok tt.
Proof. apply validate_password_Ok_iff. Qed.

(** X15. A [ValidationError] that comes out of [validate_password] is
    always the aggregate, never empty, of the errors of the validators, in
    their order; and then every validator was called, once, in order. *)
Theorem validate_password_raises_aggregate validators calls error :
  (validate_password default_validators password user (Some validators) calls).1
  = Raise (ExnValidationError error) →
  raised_errors password user validators ≠ []
  ∧ error = ValidationError_list (raised_errors password user validators)
  ∧ (validate_password default_validators password user (Some validators) calls).2
    = calls ++ calls_of password user validators.
Proof.
  unfold validate_password. unfold mbind at 1 3, Traced_bind at 1 3. simpl.
  unfold mbind, Traced_bind.
  destruct (validate_password_loop_cases validators [] calls)
    as [[Hall Hloop] | (before & v & after & e & -> & Hb & Hv & He & Hloop)];
    rewrite Hloop; simpl.
  - destruct (raised_errors password user validators); [done|].
    simpl. by intros [= <-].
  - intros [= ->]. by destruct (He error).
Qed.

End OrchestratorOutcomes.

Lemma validate_password_propagates_witness :
  validate_password (Ok []) (py "secret") None
    (Some ([sample_A] ++ sample_D :: [sample_C])) []
  = (Raise TypeError, [] ++ calls_of (py "secret") None ([sample_A] ++ [sample_D])).
Proof.
  apply validate_password_propagates.
  - intros v [<- | []]. right. eexists. reflexivity.
  - reflexivity.
  - intros error H. discriminate H.
Defined.

Lemma validate_password_raises_aggregate_witness :
  raised_errors (py "secret") None [sample_A; sample_B; sample_C] ≠ []
  ∧ ValidationError_list (raised_errors (py "secret") None [sample_A; sample_C])
    = ValidationError_list
        (raised_errors (py "secret") None [sample_A; sample_B; sample_C])
  ∧ (validate_password (Ok []) (py "secret") None
       (Some [sample_A; sample_B; sample_C]) []).2
    = [] ++ calls_of (py "secret") None [sample_A; sample_B; sample_C].
Proof.
  apply (validate_password_raises_aggregate (Ok []) (py "secret") None
           [sample_A; sample_B; sample_C] []).
  reflexivity.
Defined.

(** ** The registry: composition and options *)

Section RegistryComposition.

Variable import_string : text -> Result klass.

Lemma get_password_validators_loop_acc config validators :
  get_password_validators_loop import_string config validators
  = built ← get_password_validators_loop import_string config [];
    Ok (validators ++ built).
Proof.
  revert validators. induction config as [|record config IH]; intros validators.
  - simpl. by rewrite app_nil_r.
  - simpl. destruct (import_string (NAME record)) as [k|e]; simpl.
    + destruct (k (default ∅ (OPTIONS record))) as [v|e]; simpl; [|done].
      rewrite IH. rewrite (IH [v]).
      destruct (get_password_validators_loop import_string config []); simpl;
        [|done].
      by rewrite <- app_assoc.
    + by destruct e.
Qed.

Lemma get_password_validators_loop_app config config' validators :
  get_password_validators_loop import_string (config ++ config') validators
  = built ← get_password_validators_loop import_string config validators;
    get_password_validators_loop import_string config' built.
Proof.
  revert validators. induction config as [|record config IH]; intros validators.
  - done.
  - simpl. destruct (import_string (NAME record)) as [k|e]; simpl.
    + destruct (k (default ∅ (OPTIONS record))) as [v|e]; simpl; [|done].
      apply IH.
    + by destruct e.
Qed.

(** X16. Configurations compose: the validators of two configurations put
    end to end are the validators of the first followed by those of the
    second, and the first exception raised, in that order, is the one
    raised. *)
Theorem get_password_validators_app (config config' : list ValidatorConfig) :
  get_password_validators import_string (config ++ config')
  = validators ← get_password_validators import_string config;
    validators' ← get_password_validators import_string config';
    Ok (validators ++ validators').
Proof.
  unfold get_password_validators.
  rewrite get_password_validators_loop_app.
  destruct (get_password_validators_loop import_string config []) as [vs|e];
    simpl; [|done].
  apply get_password_validators_loop_acc.
Qed.

End RegistryComposition.

Lemma bind_kwargs_unexpected params kwargs k :
  is_Some (kwargs !! k) → ¬ In k (params.*1) →
  bind_kwargs params kwargs = Raise TypeError.
Proof.
  intros Hk Hnot. unfold bind_kwargs. case_decide as Hdom; [|done].
  destruct Hnot. apply elem_of_dom in Hk. apply Hdom in Hk.
  apply elem_of_list_to_set in Hk. by apply list_elem_of_In.
Qed.

Lemma bind_kwargs_expected params kwargs :
  (∀ k, is_Some (kwargs !! k) → In k (params.*1)) →
  ∃ args, bind_kwargs params kwargs = Ok args.
Proof.
  intros Hall. unfold bind_kwargs. case_decide as Hdom; [by eexists|].
  destruct Hdom. intros k Hk. apply elem_of_dom in Hk.
  apply elem_of_list_to_set, list_elem_of_In. by apply Hall.
Qed.

(** X17. The nine classes reject an option they do not declare: called with
    a keyword that is not one of its parameters, a class raises [TypeError],
    [CommonPasswordValidator] doing so before it reads any file.  Called
    with declared options only, every class but [CommonPasswordValidator],
    which depends on the file, returns a validator. *)
Theorem class_of_options (fs : FileSystem) (c : class_name)
    (kwargs : gmap text value) :
  ((∃ k, is_Some (kwargs !! k) ∧ ¬ In k (class_parameters c)) →
   class_of fs c kwargs = Raise TypeError)
  ∧ ((∀ k, is_Some (kwargs !! k) → In k (class_parameters c)) →
     c ≠ CCommonPassword →
     ∃ v, class_of fs c kwargs = Ok v).
Proof.
  split.
  - intros (k & Hk & Hnot).
    destruct c; simpl;
      unfold MinimumLengthValidator, UserAttributeSimilarityValidator,
        CommonPasswordValidator, NumericPasswordValidator,
        AtLeastOneDigitValidator, AtLeastOnePunctuationCharacterValidator,
        AtLeastOneUppercaseCharacterValidator,
        AtLeastOneLowercaseCharacterValidator, NoRepeatsValidator;
      match goal with
      | |- context [bind_kwargs ?params kwargs] =>
          by rewrite (bind_kwargs_unexpected params kwargs k Hk Hnot)
      end.
  - intros Hall Hc.
    destruct c; try done; simpl;
      unfold MinimumLengthValidator, UserAttributeSimilarityValidator,
        NumericPasswordValidator,
        AtLeastOneDigitValidator, AtLeastOnePunctuationCharacterValidator,
        AtLeastOneUppercaseCharacterValidator,
        AtLeastOneLowercaseCharacterValidator, NoRepeatsValidator;
      match goal with
      | |- context [bind_kwargs ?params kwargs] =>
          destruct (bind_kwargs_expected params kwargs Hall) as [args ->]
      end; by eexists.
Qed.

Lemma class_of_options_witness :
  class_of sample_fs CCommonPassword {[ py "min_length" := VInt 3 ]}
  = Raise TypeError
  ∧ ∃ v, class_of sample_fs CNoRepeats {[ py "max_repeats" := VInt 3 ]} = Ok v.
Proof.
  split.
  - apply (proj1 (class_of_options sample_fs CCommonPassword
                    {[ py "min_length" := VInt 3 ]})).
    exists (py "min_length"). split; [by eexists|].
    simpl. intros [H | []]. discriminate H.
  - apply (proj2 (class_of_options sample_fs CNoRepeats
                    {[ py "max_repeats" := VInt 3 ]})); [|done].
    intros k [v Hk].
    destruct (decide (k = py "max_repeats")) as [-> | Hne]; [by left|].
    by rewrite lookup_singleton_ne in Hk.
Defined.

(** ** The [password_changed] hook *)

Section PasswordChanged.

Context {W : Type}.
Variable default_validators : Result (list (HookedValidator W)).
Variables (password : text) (user : option User).

(** X18. [password_changed] passes over the validators that do not define
    the hook: leaving them out changes neither the outcome nor the state; when
    no validator defines it, the call returns [None] and the state is
    untouched. *)
Theorem password_changed_skips_hookless
    (validators : list (HookedValidator W)) (w : W) :
  password_changed default_validators password user (Some validators) w
  = password_changed default_validators password user
      (Some (List.filter has_password_changed validators)) w
  ∧ ((∀ v, In v validators → password_changed_method v = None) →
     password_changed default_validators password user (Some validators) w
     = (Ok tt, w)).
Proof.
  unfold password_changed. split.
  - revert w. induction validators as [|v validators IH]; intros w; [done|].
    simpl. unfold has_password_changed.
    destruct (password_changed_method v) as [method|] eqn:Hv.
    + simpl. unfold getattr_password_changed. rewrite Hv.
      destruct (method password user w) as [[[]|e] w']; [apply IH | done].
    + unfold getattr_password_changed. rewrite Hv. apply IH.
  - intros Hnone. revert w.
    induction validators as [|v validators IH]; intros w; [done|].
    simpl. unfold getattr_password_changed.
    rewrite (Hnone v) by (by left). apply IH.
    intros v' Hv'. apply Hnone. by right.
Qed.

End PasswordChanged.

Lemma password_changed_skips_hookless_witness :
  password_changed (Ok []) (py "secret") None
    (Some [sample_hookless sample_A; sample_hookless sample_B]) []
  = (Ok tt, []).
Proof.
  apply (proj2 (password_changed_skips_hookless (Ok []) (py "secret") None
                  [sample_hookless sample_A; sample_hookless sample_B] [])).
  intros v [<- | [<- | []]]; reflexivity.
Defined.

(** ** The default validators *)

Lemma import_string_module_path (fs : FileSystem) (c : class_name) :
  import_string_module fs (class_path c) = Ok (class_of fs c).
Proof. destruct c; reflexivity. Qed.

Lemma CommonPasswordValidator_default (fs : FileSystem) :
  CommonPasswordValidator fs ∅
  = passwords ← CommonPasswordValidator_init fs (DEFAULT_PASSWORD_LIST_PATH fs);
    Ok {| validate := CommonPasswordValidator_validate passwords;
          get_help_text := CommonPasswordValidator_get_help_text;
          attrs := ∅ |}.
Proof. reflexivity. Qed.


(** The default configuration, the password list being readable. *)
Lemma constructed_from_class fs c options v :
  class_of fs c (default ∅ options) = Ok v →
  constructed_from (import_string_module fs)
    {| NAME := class_path c; OPTIONS := options |} v.
Proof.
  intros Hv. exists (class_of fs c). split; [apply import_string_module_path | done].
Qed.

Lemma get_default_password_validators_instances (fs : FileSystem) passwords :
  CommonPasswordValidator_init fs (DEFAULT_PASSWORD_LIST_PATH fs) = Ok passwords →
  get_default_password_validators (import_string_module fs) None
  = Ok (default_instances passwords).
Proof.
  intros Hinit. unfold get_default_password_validators.
  apply get_password_validators_Ok.
  change (default DEFAULT_AUTH_PASSWORD_VALIDATORS None)
    with DEFAULT_AUTH_PASSWORD_VALIDATORS.
  unfold DEFAULT_AUTH_PASSWORD_VALIDATORS, default_instances.
  repeat (apply List.Forall2_cons); try apply List.Forall2_nil.
  - apply (constructed_from_class fs CUserAttributeSimilarity). reflexivity.
  - apply (constructed_from_class fs CMinimumLength). reflexivity.
  - apply (constructed_from_class fs CCommonPassword).
    change (CommonPasswordValidator fs ∅ = Ok
     {|
       validate := CommonPasswordValidator_validate passwords;
       get_help_text := CommonPasswordValidator_get_help_text;
       attrs := ∅
     |}).
    rewrite CommonPasswordValidator_default, Hinit. reflexivity.
  - apply (constructed_from_class fs CNumericPassword). reflexivity.
  - apply (constructed_from_class fs CAtLeastOneDigit). reflexivity.
  - apply (constructed_from_class fs CAtLeastOnePunctuationCharacter). reflexivity.
  - apply (constructed_from_class fs CAtLeastOneUppercaseCharacter). reflexivity.
  - apply (constructed_from_class fs CAtLeastOneLowercaseCharacter). reflexivity.
  - apply (constructed_from_class fs CNoRepeats). reflexivity.
Qed.

Lemma UserAttributeSimilarityValidator_default_passes
    (password : text) (user : option User) :
  no_letter_attribute user →
  UserAttributeSimilarityValidator_validate DEFAULT_USER_ATTRIBUTES
    (VFloat (1 # 2)) password user = Ok tt.
Proof.
  intros Hnone. destruct user as [u|]; [|done].
  change (UserAttributeSimilarityValidator_attributes (VFloat (1 # 2)) password
            u (map VStr (map (fun c => [c]) (py "username"))) = Ok tt).
  apply UserAttributeSimilarityValidator_attributes_skipped.
  intros name s Hin. apply in_map_iff in Hin as (c & <- & Hc).
  by apply (Hnone u).
Qed.

Lemma MinimumLengthValidator_passes (min_length : Z) (password : text) user :
  MinimumLengthValidator_validate (VInt min_length) password user = Ok tt
  ↔ min_length ≤ Z.of_nat (length password).
Proof.
  unfold MinimumLengthValidator_validate. simpl.
  destruct (Z.of_nat (length password) <? min_length) eqn:H.
  - apply Z.ltb_lt in H. split; [done | lia].
  - apply Z.ltb_ge in H. done.
Qed.

Lemma CommonPasswordValidator_passes (passwords : gset text) password user :
  CommonPasswordValidator_validate passwords password user = Ok tt
  ↔ str_strip (str_lower password) ∉ passwords.
Proof. unfold CommonPasswordValidator_validate. by case_decide. Qed.

Lemma NumericPasswordValidator_passes_uppercase (password : text) user c :
  In c password → char_isupper c = true →
  NumericPasswordValidator_validate password user = Ok tt.
Proof.
  intros Hin Hc. unfold NumericPasswordValidator_validate, str_isdigit.
  destruct password as [|a password]; [done|].
  destruct (forallb char_isdigit (a :: password)) eqn:Hall; [|done].
  rewrite forallb_forall in Hall.
  pose proof (char_classes_disjoint c) as (_ & D & _).
  rewrite (Hall c Hin), Hc in D. discriminate D.
Qed.

(** The call without validators is the call with the default ones. *)
Lemma validate_password_default validators password user calls :
  validate_password (Ok validators) password user None calls
  = validate_password (Ok validators) password user (Some validators) calls.
Proof. reflexivity. Qed.

(** X19. The default policy.  With the validators of
    [DEFAULT_AUTH_PASSWORD_VALIDATORS], the password list being readable,
    and for no user or a user without string attributes under the letters of
    [username], [validate_password] called without validators returns [None]
    exactly for the passwords of at least ten characters that are not, once
    lower-cased and stripped, in the list, that hold a digit, a punctuation
    character or a space, an upper-case and a lower-case letter, and in which
    no character comes three times in a row. *)
Theorem validate_password_default_policy
    (fs : FileSystem) (passwords : gset text) (user : option User)
    (password : text) (calls : list Call) :
  CommonPasswordValidator_init fs (DEFAULT_PASSWORD_LIST_PATH fs) = Ok passwords →
  no_letter_attribute user →
  (validate_password
     (get_default_password_validators (import_string_module fs) None)
     password user None calls).1 = Ok tt
  ↔ meets_default_policy passwords password.
Proof.
  intros Hinit Huser.
  rewrite (get_default_password_validators_instances fs passwords Hinit).
  rewrite validate_password_default, validate_password_Ok_iff.
  rewrite <- List.Forall_forall. unfold default_instances, meets_default_policy.
  rewrite !Forall_cons. cbn [validate].
  rewrite MinimumLengthValidator_passes, CommonPasswordValidator_passes.
  rewrite (NoRepeatsValidator_passes 2 password user)
    by (unfold in_index_range, sys_maxsize; lia).
  unfold AtLeastOneDigitValidator_validate,
    AtLeastOnePunctuationCharacterValidator_validate,
    AtLeastOneUppercaseCharacterValidator_validate,
    AtLeastOneLowercaseCharacterValidator_validate.
  rewrite !at_least_one_passes.
  change (Z.to_nat (2 + 1)) with 3%nat.
  split.
  - intros (_ & Hlen & Hcommon & _ & Hd & Hp & Hu & Hl & Hrun & _). done.
  - intros (Hlen & Hcommon & Hd & Hp & Hu & Hl & Hrun).
    split; [by apply UserAttributeSimilarityValidator_default_passes|].
    destruct Hu as (c & Hin & Hc).
    repeat split; try done; try by exists c.
    by apply (NumericPasswordValidator_passes_uppercase _ _ c).
Qed.

Lemma validate_password_default_policy_witness :
  (validate_password
     (get_default_password_validators (import_string_module sample_fs) None)
     (py "Tr0ub4dor & 3") None None []).1 = Ok tt
  ↔ meets_default_policy (list_to_set [py "password"; py "123456"])
      (py "Tr0ub4dor & 3").
Proof.
  apply validate_password_default_policy; [reflexivity|].
  intros u Hu. discriminate Hu.
Defined.

Lemma get_password_validators_loop_raise import_string record rest validators k e :
  import_string (NAME record) = Ok k →
  k (default ∅ (OPTIONS record)) = Raise e →
  get_password_validators_loop import_string (record :: rest) validators = Raise e.
Proof. intros Hk He. simpl. rewrite Hk. simpl. by rewrite He. Qed.

(** X20. When the password list cannot be read, the default validators
    cannot be built: the exception of the constructor of
    [CommonPasswordValidator] comes out of [get_default_password_validators],
    and out of [validate_password] called without validators, before any
    validator is called. *)
Theorem default_validators_unavailable (fs : FileSystem) (e : exn) :
  CommonPasswordValidator_init fs (DEFAULT_PASSWORD_LIST_PATH fs) = Raise e →
  get_default_password_validators (import_string_module fs) None = Raise e
  ∧ ∀ password user calls,
      validate_password
        (get_default_password_validators (import_string_module fs) None)
        password user None calls
      = (Raise e, calls).
Proof.
  intros Hinit.
  assert (get_default_password_validators (import_string_module fs) None = Raise e)
    as Hdefault.
  { unfold get_default_password_validators, get_password_validators.
    change (default DEFAULT_AUTH_PASSWORD_VALIDATORS None)
      with (firstn 2 DEFAULT_AUTH_PASSWORD_VALIDATORS
            ++ skipn 2 DEFAULT_AUTH_PASSWORD_VALIDATORS).
    rewrite (get_password_validators_loop_built (import_string_module fs)
               (firstn 2 DEFAULT_AUTH_PASSWORD_VALIDATORS)
               (firstn 2 (default_instances ∅))).
    - apply (get_password_validators_loop_raise _ _ _ _
               (class_of fs CCommonPassword)); [reflexivity|].
      change (CommonPasswordValidator fs ∅ = Raise e).
      by rewrite CommonPasswordValidator_default, Hinit.
    - unfold DEFAULT_AUTH_PASSWORD_VALIDATORS, default_instances.
      cbn [firstn].
      repeat (apply List.Forall2_cons); try apply List.Forall2_nil.
      + apply (constructed_from_class fs CUserAttributeSimilarity). reflexivity.
      + apply (constructed_from_class fs CMinimumLength). reflexivity. }
  split; [done|]. intros password user calls. by rewrite Hdefault.
Qed.

Lemma default_validators_unavailable_witness :
  get_default_password_validators
    (import_string_module
       {| gzip_read_splitlines := fun _ => Raise IOError;
          open_readlines := fun _ => Raise IOError;
          module_directory := py "/srv" |}) None
  = Raise IOError.
Proof.
  apply (proj1 (default_validators_unavailable
                  {| gzip_read_splitlines := fun _ => Raise IOError;
                     open_readlines := fun _ => Raise IOError;
                     module_directory := py "/srv" |} IOError eq_refl)).
Defined.
